(** * RAMSES frontend: domain readers, field-offset index and subset filler

    A shallow embedding of [yt/frontends/ramses/data_structures.py] and
    [yt/frontends/ramses/field_handlers.py].  Python integers are [Z],
    numpy arrays are lists, dictionaries keyed by field name are [gmap]s,
    exceptions are the [Raise] branch of [result], and file handles are
    explicit [stream] values threaded through the readers. *)

From stdpp Require Import base list gmap strings.
From Stdlib Require Import ZArith Lia.

Local Open Scope Z_scope.

(** ** Exceptions and the result monad *)

Inductive error :=
| IOError
| CorruptRecordError
| ValueError
| IndexError
| AssertionError
| RuntimeError
| NotImplementedError
| AttributeError
| BdbQuit.

Inductive result (A : Type) :=
| Ok (a : A)
| Raise (e : error).
Arguments Ok {A} a.
Arguments Raise {A} e.

#[export] Instance result_ret : MRet result := fun A a => Ok a.
#[export] Instance result_bind : MBind result := fun A B k r =>
  match r with
  | Ok a => k a
  | Raise e => Raise e
  end.

(** A computation that leaves a trace (text printed, files opened) and
    may raise: the trace, then the outcome. *)
Definition traced (E A : Type) : Type := list E * result A.

#[export] Instance traced_ret {E} : MRet (traced E) :=
  fun A a => ([], Ok a).
#[export] Instance traced_bind {E} : MBind (traced E) := fun A B k c =>
  match c with
  | (out, Ok a) => let '(out', r) := k a in (out ++ out', r)
  | (out, Raise e) => (out, Raise e)
  end.

Definition quiet {E A} (r : result A) : traced E A := ([], r).
Definition raise {E A} (e : error) : traced E A := ([], Raise e).

Definition is_ok {A} (r : result A) : Prop :=
  match r with Ok _ => True | Raise _ => False end.

(** A Python [for] loop whose body may raise: the first exception leaves
    the loop. *)
Fixpoint for_each {M : Type -> Type} `{MRet M, MBind M} {A S : Type}
    (body : S -> A -> M S) (s : S) (l : list A) : M S :=
  match l with
  | [] => mret s
  | a :: l' => s' ← body s a; for_each body s' l'
  end.

(** A list comprehension whose element expression may raise. *)
Fixpoint map_each {M : Type -> Type} `{MRet M, MBind M} {A B : Type}
    (f : A -> M B) (l : list A) : M (list B) :=
  match l with
  | [] => mret []
  | a :: l' => b ← f a; bs ← map_each f l'; mret (b :: bs)
  end.

(** [range(n)] *)
Definition range (n : Z) : list Z := seqZ 0 n.

(** [a[i]] on a one-dimensional numpy array: a negative index counts from
    the end, an index out of bounds raises [IndexError]. *)
Definition getitem {A} (a : list A) (i : Z) : result A :=
  let n := Z.of_nat (length a) in
  let j := if i <? 0 then i + n else i in
  if (0 <=? j) && (j <? n)
  then match a !! Z.to_nat j with
       | Some x => Ok x
       | None => Raise IndexError
       end
  else Raise IndexError.

(** [a[i] = x], same indexing. *)
Definition setitem {A} (a : list A) (i : Z) (x : A) : result (list A) :=
  let n := Z.of_nat (length a) in
  let j := if i <? 0 then i + n else i in
  if (0 <=? j) && (j <? n)
  then Ok (<[Z.to_nat j := x]> a)
  else Raise IndexError.

(** [a[:, k] = v] on an array of [n] rows: the shapes must agree, except
    that a single element is broadcast; the result is the new column. *)
Definition assign_column {A} (n : nat) (v : list A) : result (list A) :=
  if (length v =? n)%nat then Ok v
  else match v with
       | [x] => Ok (replicate n x)
       | _ => Raise ValueError
       end.

(** [for k in keys: d[k] = np.zeros(n)] (or [np.empty]): a negative
    size raises [ValueError] at the first allocation. *)
Definition allocate_each {A} (keys : list string) (n : Z)
    (blank : nat -> A) : result (gmap string A) :=
  match keys with
  | [] => Ok ∅
  | _ :: _ =>
      if n <? 0 then Raise ValueError
      else Ok (foldl (fun m k => <[k := blank (Z.to_nat n)]> m) ∅ keys)
  end.

(** [a[m:]]: the start of a slice is clipped, never an error. *)
Definition slice_start (len : nat) (m : Z) : nat :=
  if m <? 0 then Z.to_nat (Z.max 0 (m + Z.of_nat len))
  else Nat.min (Z.to_nat m) len.

Definition slice_from {A} (a : list A) (m : Z) : list A :=
  drop (slice_start (length a) m) a.

(** ** Record codec *)

Module Codec.

(** Modelled from the spec: the record codec
    ([yt.utilities.fortran_utils]) is not among the sources.  Section 4.1:
    every record is framed by a leading and a trailing 4-byte length
    marker; the codec verifies that the two agree and fails with
    [CorruptRecordError] otherwise; [skip] consumes both markers of each
    record it passes.  A file is the list of its records, a record is its
    two markers and its decoded elements, and an open file is the records
    still ahead together with the byte position reached. *)
Record record := {
  rec_lead  : N;        (* leading marker: payload length in bytes *)
  rec_vals  : list Z;   (* decoded elements of the payload *)
  rec_trail : N         (* trailing marker *)
}.

Record stream := {
  origin : list record;  (* the whole file, for absolute seeks *)
  tell   : Z;            (* byte position *)
  ahead  : list record   (* records from the position on *)
}.

Definition framed_size (r : record) : Z := 4 + Z.of_N (rec_lead r) + 4.

Definition open (file : list record) : stream :=
  {| origin := file; tell := 0; ahead := file |}.

(** One record, markers checked. *)
Definition next_record (f : stream) : result (record * stream) :=
  match ahead f with
  | [] => Raise IOError
  | r :: rs =>
      if (rec_lead r =? rec_trail r)%N
      then Ok (r, {| origin := origin f;
                     tell := tell f + framed_size r;
                     ahead := rs |})
      else Raise CorruptRecordError
  end.

(** [read_vector(f, type_code)] *)
Definition read_vector (f : stream) : result (list Z * stream) :=
  '(r, f') ← next_record f; Ok (rec_vals r, f').

(** [skip(f, n)]: [n] records, no payload kept; [n <= 0] skips nothing. *)
Fixpoint skip_records (n : nat) (f : stream) : result stream :=
  match n with
  | O => Ok f
  | S n' => '(_, f') ← next_record f; skip_records n' f'
  end.

Definition skip (f : stream) (n : Z) : result stream :=
  skip_records (Z.to_nat n) f.

(** [read_attrs(f, ((name, n, type),))]: one record holding exactly [n]
    elements. *)
Definition read_array (f : stream) (n : nat) : result (list Z * stream) :=
  '(v, f') ← read_vector f;
  if (length v =? n)%nat then Ok (v, f') else Raise CorruptRecordError.

(** [read_attrs(f, ((name, 1, type),))]: one record holding one scalar. *)
Definition read_scalar (f : stream) : result (Z * stream) :=
  '(v, f') ← read_vector f;
  match v with
  | [x] => Ok (x, f')
  | _ => Raise CorruptRecordError
  end.

(** The records that start at byte [off] of a file, if [off] is a record
    boundary. *)
Fixpoint records_at (file : list record) (off : Z) : option (list record) :=
  if off =? 0 then Some file
  else match file with
       | [] => None
       | r :: rs =>
           if off <? framed_size r then None
           else records_at rs (off - framed_size r)
       end.

(** [f.seek(off)]: always succeeds; away from a record boundary (or past
    the end) nothing readable lies ahead. *)
Definition seek (f : stream) (off : Z) : stream :=
  {| origin := origin f; tell := off;
     ahead := default [] (records_at (origin f) off) |}.

End Codec.

(** ** Interfaces consumed from the host framework *)

(** float64 values.  The sources only move them around, subtract the
    header shift and print extrema; the arithmetic itself is left to the
    instance. *)
Class Float64 := {
  f64 : Type;
  f64_zero : f64;
  f64_half : f64;                      (* 0.5 *)
  f64_one : f64;
  f64_empty : f64;                     (* whatever np.empty leaves *)
  f64_of_bits : Z -> f64;              (* a decoded 'd' element *)
  f64_shift : Z -> f64;                (* (i - 1.0) / 2.0 *)
  f64_sub : f64 -> f64 -> f64;
  f64_min : list f64 -> f64;
  f64_max : list f64 -> f64;
  f64_nonzero : f64 -> bool            (* bool(x) *)
}.

(** The [bbox] argument of the dataset when it is not [None]: a Python
    sequence (list or tuple) of corners, or a numpy array of corners. *)
Inductive bbox_value {F : Float64} :=
| BoxSeq (corners : list (list f64))
| BoxArray (corners : list (list f64)).

(** An (ng, 3) array of oct centres, held by column. *)
Record positions {F : Float64} := {
  pos_x : list f64;
  pos_y : list f64;
  pos_z : list f64
}.

(** What a selector object shows to this module: an optional [domain_id]
    attribute ([None] when the attribute is missing or is [None]) and the
    predicate the octree container evaluates. *)
Record selector (P : Type) := {
  sel_domain_id : option Z;
  sel_pred : P
}.
Arguments sel_domain_id {P} s.
Arguments sel_pred {P} s.

(** The octree container ([RAMSESOctreeContainer]) with the operations the
    sources call on it. *)
Class OctreeContainer {F : Float64} := {
  oct : Type;
  pred : Type;
  (* RAMSESOctreeContainer(domain_dimensions / 2, left_edge, right_edge);
     the halving is part of this operation *)
  oct_new : list Z -> list f64 -> list f64 -> oct;
  num_domains : oct -> Z;
  allocate_domains : oct -> list Z -> Z -> oct;
  (* add(domain, level, pos, count_boundary = 1) -> inserted count *)
  oct_add : oct -> Z -> Z -> positions -> Z * oct;
  finalize : oct -> oct;
  domain_identify : oct -> selector pred -> list Z;
  count_oct_cells : selector pred -> oct -> Z -> Z;
  file_index_octs :
    oct -> selector pred -> Z -> Z -> list Z * list Z * list Z;
  fill_level :
    oct -> Z -> list Z -> list Z -> list Z ->
    gmap string (list f64) -> gmap string (list (list f64)) ->
    gmap string (list f64)
}.

(** ** Two-dimensional integer tables (numpy, row-major) *)

Fixpoint chunks (rows cols : nat) (a : list Z) : list (list Z) :=
  match rows with
  | O => []
  | S r => take cols a :: chunks r cols (drop cols a)
  end.

(** [np.array(a).reshape((r, c))]; both dimensions are counts read from
    the header, a size that does not match raises [ValueError]. *)
Definition reshape (a : list Z) (r c : Z) : result (list (list Z)) :=
  if (0 <=? r) && (0 <=? c) && (Z.of_nat (length a) =? r * c)
  then Ok (chunks (Z.to_nat r) (Z.to_nat c) a)
  else Raise ValueError.

Definition sum_list (a : list Z) : Z := foldr Z.add 0 a.

(** [t[:, j]] where the table has [cols] columns. *)
Definition column (cols : Z) (t : list (list Z)) (j : Z)
  : result (list Z) :=
  let k := if j <? 0 then j + cols else j in
  if (0 <=? k) && (k <? cols)
  then Ok (map (fun row => row !!! Z.to_nat k) t)
  else Raise IndexError.

(** [t.sum(axis=0)] where the table has [cols] columns. *)
Definition sum_axis0 (cols : Z) (t : list (list Z)) : list Z :=
  foldr (zip_with Z.add) (replicate (Z.to_nat cols) 0) t.

(** ** Data model *)

(** The dataset attributes this module reads; [_parse_parameter_file]
    sets them. *)
Record dataset {F : Float64} := {
  parameter_filename : string;
  _bbox : option bbox_value;           (* the bbox argument, or None *)
  min_level : Z;
  dimensionality : nat;
  domain_dimensions : list Z;
  domain_left_edge : list f64;
  domain_right_edge : list f64;
  param_ncpu : Z;                      (* parameters['ncpu'] *)
  ordering_type : string
}.

(** The scalars and arrays of the AMR header the module uses. *)
Record amr_header := {
  ncpu : Z;
  nlevelmax : Z;
  nboundary : Z;
  nx : Z * Z * Z;
  numbl : list (list Z)
}.

(** [FieldFileHandler] *)
Record field_handler := {
  fh_domain_id : Z;
  fname : string;
  attrs : list (string * nat * string);     (* header schema *)
  nvar : Z;                                 (* parameters['nvar'] *)
  field_list : list (string * string);      (* (ftype, name), positional *)
  _offset : option (list Z);
  _level_count : option (list Z)
}.

(** [RAMSESDomainFile] *)
Record domain_file {F : Float64} {O : OctreeContainer} := {
  ds : dataset;
  domain_id : Z;
  amr_fn : string;
  amr_hdr : amr_header;
  ngridbound : list Z;
  amr_offset : Z;
  local_oct_count : Z;
  total_oct_count : list Z;
  field_handlers : list field_handler;
  oct_handler : option oct;            (* set by [_read_amr] *)
  max_level : Z                        (* set by [_read_amr] *)
}.

(** Lines [_error_check] writes to standard output. *)
Inductive line {F : Float64} :=
| LBanner                                   (* "We have detected an error ..." *)
| LToAdd (ng : Z)
| LAdded (n : Z)
| LLevel (level : Z)
| LCpu (cpu : Z)
| LExtent (axis : nat) (lo hi : f64)
| LDomainLeft (e : list f64)
| LDomainRight (e : list f64)
| LOffset (ox oy oz : f64)
| LHeaderBanner                             (* "AMR Header:" *)
| LHeader (h : amr_header).                 (* one line per sorted key *)

(** What the module does to the outside world, in order. *)
Inductive event {F : Float64} :=
| EvOpen (path : string)                    (* a file is opened *)
| EvPrint (l : line)                        (* a line is printed *)
| EvDomainIdentify (owner : Z).             (* a container is queried *)

(** Files on disk, by path; a missing file cannot be opened. *)
Definition filesystem := string -> option (list Codec.record).

Definition open_file {F : Float64} (fs : filesystem) (path : string)
  : traced event Codec.stream :=
  ([EvOpen path],
   match fs path with
   | Some file => Ok (Codec.open file)
   | None => Raise IOError
   end).

Definition print {F : Float64} (l : list line) : traced event unit :=
  (map EvPrint l, Ok tt).

(** ** AMR header and domain reader *)

Section DomainReader.
Context {F : Float64} {O : OctreeContainer}.
Import Codec.

(** The header schema ([definitions.ramses_header]) is not among the
    sources: reading the header attributes is a parameter, returning the
    header with [numbl] still flat. *)
Variable read_header_attrs :
  stream -> result (Z * Z * Z * (Z * Z * Z) * list Z * stream).

Definition _read_amr_header (fs : filesystem) (d : dataset) (dom_id : Z)
    (path : string) : traced event domain_file :=
  f ← open_file fs path;
  quiet (
    '(h_ncpu, h_nlevelmax, h_nboundary, h_nx, flat, f) ←
       read_header_attrs f;
    tbl ← reshape flat h_nlevelmax h_ncpu;
    f ← skip f 1;
    '(bound, f) ←
       (if h_nboundary >? 0
        then f ← skip f 2; read_vector f
        else Ok (replicate (Z.to_nat h_nlevelmax) 0, f));
    '(_, f) ← read_array f 5;            (* free_mem *)
    '(_, f) ← read_vector f;             (* ordering *)
    f ← skip f 4;
    own ← column h_ncpu (slice_from tbl (min_level d)) (dom_id - 1);
    Ok {| ds := d;
          domain_id := dom_id;
          amr_fn := path;
          amr_hdr := {| ncpu := h_ncpu; nlevelmax := h_nlevelmax;
                        nboundary := h_nboundary; nx := h_nx;
                        numbl := tbl |};
          ngridbound := bound;
          amr_offset := tell f;
          local_oct_count := sum_list own;
          total_oct_count :=
            sum_axis0 h_ncpu (slice_from tbl (min_level d));
          field_handlers := [];
          oct_handler := None;
          max_level := 0 |}).

Definition _ng (d : domain_file) (c l : Z) : result Z :=
  if c <? ncpu (amr_hdr d)
  then row ← getitem (numbl (amr_hdr d)) l; getitem row c
  else getitem (ngridbound d)
         (c - ncpu (amr_hdr d) + nboundary (amr_hdr d) * l).

Definition _error_check (d : domain_file) (h : oct) (cpu level : Z)
    (pos : positions) (n ng : Z) (nn : f64 * f64 * f64)
  : traced event unit :=
  if (n =? ng) || (cpu + 1 >? num_domains h)
  then mret tt
  else
    let '(ox, oy, oz) := nn in
    _ ← print [ LBanner; LToAdd ng; LAdded n; LLevel level; LCpu cpu;
                LExtent 0 (f64_min (pos_x pos)) (f64_max (pos_x pos));
                LExtent 1 (f64_min (pos_y pos)) (f64_max (pos_y pos));
                LExtent 2 (f64_min (pos_z pos)) (f64_max (pos_z pos));
                LDomainLeft (domain_left_edge (ds d));
                LDomainRight (domain_right_edge (ds d));
                LOffset ox oy oz;
                LHeaderBanner; LHeader (amr_hdr d) ];
    raise RuntimeError.

(** The state of the oct-reading scan: the open file, the container being
    populated and the deepest level at which octs were inserted. *)
Record scan := {
  sc_file : stream;
  sc_oct : oct;
  sc_max_level : Z
}.

(** The part of a block that is read from the file: index vector, two
    skipped link vectors, up to three coordinate vectors shifted by the
    header offset, and the skipped bookkeeping vectors. *)
Definition read_block (d : domain_file) (f : stream) (ng : Z)
    (nn : f64 * f64 * f64) : result (positions * stream) :=
  let '(ox, oy, oz) := nn in
  let ndim := dimensionality (ds d) in
  let shifted (o : f64) (v : list Z) :=
    map (fun b => f64_sub (f64_of_bits b) o) v in
  '(_, f) ← read_vector f;
  f ← skip f 2;
  _ ← (if ng <? 0 then Raise ValueError else Ok tt);
  let blank := replicate (Z.to_nat ng) f64_half in
  '(v, f) ← read_vector f;
  px ← assign_column (Z.to_nat ng) (shifted ox v);
  '(py, f) ←
     (if (1 <? ndim)%nat
      then '(v, f) ← read_vector f;
           c ← assign_column (Z.to_nat ng) (shifted oy v); Ok (c, f)
      else Ok (blank, f));
  '(pz, f) ←
     (if (2 <? ndim)%nat
      then '(v, f) ← read_vector f;
           c ← assign_column (Z.to_nat ng) (shifted oz v); Ok (c, f)
      else Ok (blank, f));
  f ← skip f (1 + 2 * Z.of_nat ndim + 3 * 2 ^ Z.of_nat ndim);
  Ok ({| pos_x := px; pos_y := py; pos_z := pz |}, f).

(** The body of the loop over [cpu], for one [level]. *)
Definition scan_block (d : domain_file) (nn : f64 * f64 * f64) (level : Z)
    (s : scan) (cpu : Z) : traced event scan :=
  ng ← quiet (_ng d cpu level);
  if ng =? 0 then mret s
  else
    '(pos, f) ← quiet (read_block d (sc_file s) ng nn);
    if level >=? min_level (ds d)
    then
      let '(n, h) :=
        oct_add (sc_oct s) (cpu + 1) (level - min_level (ds d)) pos in
      _ ← _error_check d h cpu level pos n ng nn;
      mret {| sc_file := f; sc_oct := h;
              sc_max_level :=
                if n >? 0
                then Z.max (level - min_level (ds d)) (sc_max_level s)
                else sc_max_level s |}
    else mret {| sc_file := f; sc_oct := sc_oct s;
                 sc_max_level := sc_max_level s |}.

Definition scan_level (d : domain_file) (nn : f64 * f64 * f64)
    (s : scan) (level : Z) : traced event scan :=
  for_each (scan_block d nn level) s
    (range (nboundary (amr_hdr d) + ncpu (amr_hdr d))).

Definition _read_amr (fs : filesystem) (d : domain_file)
  : traced event domain_file :=
  let h := oct_new (domain_dimensions (ds d)) (domain_left_edge (ds d))
             (domain_right_edge (ds d)) in
  root ← quiet (getitem (numbl (amr_hdr d)) (min_level (ds d)));
  let h := allocate_domains h (total_oct_count d) (sum_list root) in
  f ← open_file fs (amr_fn d);
  let f := seek f (amr_offset d) in
  let '(i, j, k) := nx (amr_hdr d) in
  let nn := (f64_shift i, f64_shift j, f64_shift k) in
  s ← for_each (scan_level d nn)
        {| sc_file := f; sc_oct := h; sc_max_level := 0 |}
        (range (nlevelmax (amr_hdr d)));
  mret {| ds := ds d;
          domain_id := domain_id d;
          amr_fn := amr_fn d;
          amr_hdr := amr_hdr d;
          ngridbound := ngridbound d;
          amr_offset := amr_offset d;
          local_oct_count := local_oct_count d;
          total_oct_count := total_oct_count d;
          field_handlers := field_handlers d;
          oct_handler := Some (finalize (sc_oct s));
          max_level := sc_max_level s |}.

End DomainReader.

(** ** Field-file handlers *)

Definition cached (h : field_handler) (o c : list Z) : field_handler :=
  {| fh_domain_id := fh_domain_id h;
     fname := fname h;
     attrs := attrs h;
     nvar := nvar h;
     field_list := field_list h;
     _offset := Some o;
     _level_count := Some c |}.

Section FieldFileHandler.
Context {F : Float64} {O : OctreeContainer}.
Import Codec.

(** The handler's [domain] attribute refers to the domain reader that owns
    it; the reader is passed alongside the handler. *)
Variable domain : domain_file.

Record index := {
  ix_file : stream;
  ix_offset : list Z;
  ix_count : list Z
}.

(** The body of the loop over [cpu], for one [level]. *)
Definition offset_block (h : field_handler) (level : Z)
    (s : index) (cpu : Z) : result index :=
  let min_level := min_level (ds domain) in
  let ndim := Z.of_nat (dimensionality (ds domain)) in
  '(file_ilevel, f) ← read_scalar (ix_file s);
  '(file_ncache, f) ← read_scalar f;
  if file_ncache =? 0
  then Ok {| ix_file := f; ix_offset := ix_offset s;
             ix_count := ix_count s |}
  else
    _ ← (if file_ilevel =? level + 1 then Ok tt
         else Raise AssertionError);
    '(off, cnt) ←
       (if (cpu + 1 =? fh_domain_id h) && (level >=? min_level)
        then off ← setitem (ix_offset s) (level - min_level) (tell f);
             cnt ← setitem (ix_count s) (level - min_level) file_ncache;
             Ok (off, cnt)
        else Ok (ix_offset s, ix_count s));
    f ← skip f (2 ^ ndim * nvar h);
    Ok {| ix_file := f; ix_offset := off; ix_count := cnt |}.

Definition offset_level (h : field_handler) (s : index) (level : Z)
  : result index :=
  for_each (offset_block h level) s
    (range (nboundary (amr_hdr domain) + ncpu (amr_hdr domain))).

(** The scan of the [offset] property, from the opened file on. *)
Definition offset_scan (h : field_handler) (f : stream)
  : result (list Z * list Z) :=
  f ← skip f (Z.of_nat (length (attrs h)));
  let n_levels := nlevelmax (amr_hdr domain) - min_level (ds domain) in
  _ ← (if n_levels <? 0 then Raise ValueError else Ok tt);
  s ← for_each (offset_level h)
        {| ix_file := f;
           ix_offset := replicate (Z.to_nat n_levels) (-1);
           ix_count := replicate (Z.to_nat n_levels) 0 |}
        (range (nlevelmax (amr_hdr domain)));
  Ok (ix_offset s, ix_count s).

(** The [offset] property. *)
Definition offset (fs : filesystem) (h : field_handler)
  : traced event (list Z * field_handler) :=
  match _offset h with
  | Some o => mret (o, h)
  | None =>
      f ← open_file fs (fname h);
      '(o, c) ← quiet (offset_scan h f);
      mret (o, cached h o c)
  end.

(** The [level_count] property. *)
Definition level_count (fs : filesystem) (h : field_handler)
  : traced event (list Z * field_handler) :=
  match _level_count h with
  | Some c => mret (c, h)
  | None =>
      '(_, h) ← offset fs h;
      match _level_count h with
      | Some c => mret (c, h)
      | None => raise AttributeError
      end
  end.

End FieldFileHandler.

(** ** Domain inclusion and subset work units *)

Record domain_subset {F : Float64} {O : OctreeContainer} := {
  sub_base_region : string;
  sub_domain : domain_file
}.

Record chunk {F : Float64} {O : OctreeContainer} := {
  chunk_type : string;
  objs : list domain_subset
}.

(** A data object of the host framework, by the attributes the index
    reads and writes. *)
Record data_object {F : Float64} {O : OctreeContainer} := {
  obj_name : string;
  base_region : option string;         (* [None]: no such attribute *)
  obj_selector : selector pred;
  _chunk_info : option (list domain_subset);
  _current_chunk : option chunk
}.

Section Index.
Context {F : Float64} {O : OctreeContainer}.

Definition included (d : domain_file) (sel : selector pred)
  : traced event bool :=
  match sel_domain_id sel with
  | Some i => mret (i =? domain_id d)
  | None =>
      match oct_handler d with
      | Some h =>
          ([EvDomainIdentify (domain_id d)],
           Ok (bool_decide (domain_id d ∈ domain_identify h sel)))
      | None => raise AttributeError
      end
  end.

(** [[dom for dom in domains if dom.included(selector)]] *)
Fixpoint included_domains (domains : list domain_file)
    (sel : selector pred) : traced event (list domain_file) :=
  match domains with
  | [] => mret []
  | d :: ds' =>
      b ← included d sel;
      rest ← included_domains ds' sel;
      mret (if b : bool then d :: rest else rest)
  end.

Definition _chunk_all (dobj : data_object) : list chunk :=
  let oobjs :=
    match _current_chunk dobj with
    | Some c => objs c
    | None => default [] (_chunk_info dobj)
    end in
  [ {| chunk_type := "all"; objs := oobjs |} ].

Definition _identify_base_chunk (domains : list domain_file)
    (dobj : data_object) : traced event data_object :=
  info ←
    match _chunk_info dobj with
    | Some info => mret info
    | None =>
        doms ← included_domains domains (obj_selector dobj);
        let region := default (obj_name dobj) (base_region dobj) in
        mret (map (fun d => {| sub_base_region := region;
                               sub_domain := d |}) doms)
    end;
  let dobj' :=
    {| obj_name := obj_name dobj;
       base_region := base_region dobj;
       obj_selector := obj_selector dobj;
       _chunk_info := Some info;
       _current_chunk := _current_chunk dobj |} in
  mret {| obj_name := obj_name dobj;
          base_region := base_region dobj;
          obj_selector := obj_selector dobj;
          _chunk_info := Some info;
          _current_chunk := head (_chunk_all dobj') |}.

End Index.

(** ** Domain subset field filler *)

(** [pdb.set_trace()] hands control to the interactive debugger; what
    happens next is the debugger's command.  The session is the list of
    commands still to come: [continue] resumes, [quit] or the end of the
    input raises [BdbQuit]. *)
Inductive dbg_cmd := DbgContinue | DbgQuit.

Definition pdb_set_trace (dbg : list dbg_cmd) : result (list dbg_cmd) :=
  match dbg with
  | DbgContinue :: rest => Ok rest
  | DbgQuit :: _ => Raise BdbQuit
  | [] => Raise BdbQuit
  end.

Section Subset.
Context {F : Float64} {O : OctreeContainer}.
Import Codec.

(** What [fill] reads and mutates besides its result: the open field
    file, the handler (whose properties cache) and the debugger session. *)
Record fill_state := {
  fl_content : stream;
  fl_handler : field_handler;
  fl_dbg : list dbg_cmd;
  fl_tr : gmap string (list f64)
}.

(** The (nc, 2^ndim) temporary of one field, held by column. *)
Definition empty_block (nc cols : nat) : list (list f64) :=
  replicate cols (replicate nc f64_empty).

(** The innermost loop body: one field at sub-cell position [i]. *)
Definition read_cell (fields : list string) (nc i : nat)
    (s : stream * gmap string (list (list f64)) * list dbg_cmd)
    (field : string)
  : result (stream * gmap string (list (list f64)) * list dbg_cmd) :=
  let '(content, tmp, dbg) := s in
  if bool_decide (field ∈ fields)
  then
    '(v, content) ← read_vector content;
    col ← assign_column nc (map f64_of_bits v);
    dbg ← pdb_set_trace dbg;
    Ok (content, alter (fun m => <[i := col]> m) field tmp, dbg)
  else
    content ← skip content 1;
    Ok (content, tmp, dbg).

(** The body of the loop over levels. *)
Definition fill_one_level (fs : filesystem) (dom : domain_file)
    (h : oct) (all_fields fields : list string)
    (levels cell_inds file_inds : list Z)
    (s : fill_state) (lo : Z * Z) : traced event fill_state :=
  let '(level, offset) := lo in
  if offset =? -1 then mret s
  else
    let content := seek (fl_content s) offset in
    '(counts, fh) ← level_count dom fs (fl_handler s);
    nc ← quiet (getitem counts level);
    let cols := (2 ^ dimensionality (ds dom))%nat in
    tmp ← quiet (allocate_each all_fields nc
                   (fun n => empty_block n cols));
    '(content, tmp, dbg) ←
       quiet (for_each
                (fun s i =>
                   for_each (read_cell fields (Z.to_nat nc) i) s all_fields)
                (content, tmp, fl_dbg s) (seq 0 cols));
    dbg ← quiet (pdb_set_trace dbg);
    mret {| fl_content := content;
            fl_handler := fh;
            fl_dbg := dbg;
            fl_tr := fill_level h level levels cell_inds file_inds
                       (fl_tr s) tmp |}.

Definition fill (fs : filesystem) (sub : domain_subset)
    (content : stream) (fields : list (string * string))
    (sel : selector pred) (file_handler : field_handler)
    (dbg : list dbg_cmd) : traced event fill_state :=
  let dom := sub_domain sub in
  h ← quiet (match oct_handler dom with
             | Some h => Ok h
             | None => Raise AttributeError
             end);
  let all_fields := map snd (field_list file_handler) in
  let fields := map snd fields in
  let cell_count := count_oct_cells sel h (domain_id dom) in
  let '(levels, cell_inds, file_inds) :=
    file_index_octs h sel (domain_id dom) cell_count in
  tr ← quiet (allocate_each fields cell_count
                (fun n => replicate n f64_zero));
  '(offsets, fh) ← offset dom fs file_handler;
  for_each (fill_one_level fs dom h all_fields fields
              levels cell_inds file_inds)
    {| fl_content := content; fl_handler := fh; fl_dbg := dbg;
       fl_tr := tr |}
    (zip (range (Z.of_nat (length offsets))) offsets).

End Subset.

(** ** Parameter file and index construction *)

(** The key/value lines of the info file as [read_rhs] stores them. *)
Record info_header := {
  rh_ncpu : Z;
  rh_ndim : option Z;                  (* [None]: no 'ndim' key *)
  rh_levelmin : Z;
  rh_levelmax : Z;
  rh_ordering_type : string
}.

Record ramses_index {F : Float64} {O : OctreeContainer} := {
  domains : list domain_file;
  ix_max_level : Z;
  num_grids : Z
}.

Section Dataset.
Context {F : Float64} {O : OctreeContainer}.

(** Text parsing of the info file: the [read_rhs] lines, and the table of
    curve keys that follows them for the hilbert ordering. *)
Variable read_info : string -> result info_header.
Variable read_hilbert_indices : string -> Z -> result unit.

(** Truth value of the [bbox] argument: [None] is false; a sequence is
    true when it is not empty; a numpy array is false when it has no
    element, has the truth value of its element when it has one, and has
    no truth value ([ValueError]) when it has more. *)
Definition truth_value (bbox : option bbox_value) : result bool :=
  match bbox with
  | None => Ok false
  | Some (BoxSeq []) => Ok false
  | Some (BoxSeq (_ :: _)) => Ok true
  | Some (BoxArray corners) =>
      match concat corners with
      | [] => Ok false
      | [x] => Ok (f64_nonzero x)
      | _ :: _ :: _ => Raise ValueError
      end
  end.

(** [_parse_parameter_file], up to the attributes the index reads (the
    cosmology attributes that follow are not modelled). *)
Definition _parse_parameter_file (path : string)
    (bbox : option bbox_value) : traced event dataset :=
  ([EvOpen path],
   rheader ← read_info path;
   let min_level := rh_levelmin rheader - 1 in
   _ ← (if String.eqb (rh_ordering_type rheader) "hilbert"
        then read_hilbert_indices path (rh_ncpu rheader)
        else Ok tt);
   _ ← (if negb (String.eqb (rh_ordering_type rheader) "hilbert")
        then supplied ← truth_value bbox;
             if supplied : bool then Raise NotImplementedError else Ok tt
        else Ok tt);
   let dimensionality :=
     match rh_ndim rheader with
     | Some n => Z.to_nat n
     | None => 3%nat
     end in
   Ok {| parameter_filename := path;
         _bbox := bbox;
         min_level := min_level;
         dimensionality := dimensionality;
         domain_dimensions :=
           replicate (Nat.min dimensionality 3) (2 ^ (min_level + 1))
           ++ replicate (3 - dimensionality) 1;
         domain_left_edge := replicate 3 f64_zero;
         domain_right_edge := replicate 3 f64_one;
         param_ncpu := rh_ncpu rheader;
         ordering_type := rh_ordering_type rheader |}).

(** The domain selector ([hilbert.get_cpu_list]) is not among the sources;
    it returns 0-indexed cpu numbers. *)
Variable get_cpu_list : dataset -> bbox_value -> list Z.

(** File naming, handler construction with field detection, and particle
    headers are file-name and field-name handling outside the index
    algorithms; they are parameters of the domain constructor. *)
Variable amr_path : dataset -> Z -> string.
Variable detect_field_handlers :
  filesystem -> domain_file -> traced event (list field_handler).
Variable read_particle_headers :
  filesystem -> dataset -> Z -> traced event unit.
Variable read_header_attrs :
  Codec.stream ->
  result (Z * Z * Z * (Z * Z * Z) * list Z * Codec.stream).

(** [RAMSESDomainFile.__init__] *)
Definition RAMSESDomainFile (fs : filesystem) (d : dataset) (dom_id : Z)
  : traced event domain_file :=
  dom ← _read_amr_header read_header_attrs fs d dom_id (amr_path d dom_id);
  fhs ← detect_field_handlers fs dom;
  _ ← read_particle_headers fs d dom_id;
  _read_amr fs
    {| ds := ds dom; domain_id := domain_id dom; amr_fn := amr_fn dom;
       amr_hdr := amr_hdr dom; ngridbound := ngridbound dom;
       amr_offset := amr_offset dom;
       local_oct_count := local_oct_count dom;
       total_oct_count := total_oct_count dom;
       field_handlers := fhs;
       oct_handler := oct_handler dom; max_level := max_level dom |}.

Definition cpu_list (d : dataset) : list Z :=
  match _bbox d with
  | Some b => get_cpu_list d b
  | None => range (param_ncpu d)
  end.

(** [max(...)] over a generator: empty input raises [ValueError]. *)
Definition max_of (l : list Z) : result Z :=
  match l with
  | [] => Raise ValueError
  | x :: l' => Ok (foldl Z.max x l')
  end.

Definition _initialize_oct_handler (fs : filesystem) (d : dataset)
  : traced event ramses_index :=
  doms ← map_each (fun i => RAMSESDomainFile fs d (i + 1)) (cpu_list d);
  let total_octs := sum_list (map local_oct_count doms) in
  m ← quiet (max_of (map max_level doms));
  mret {| domains := doms; ix_max_level := m; num_grids := total_octs |}.

(** The host framework parses the parameter file when the dataset is
    created and builds the index afterwards. *)
Definition load (fs : filesystem) (path : string)
    (bbox : option bbox_value) : traced event ramses_index :=
  d ← _parse_parameter_file path bbox;
  _initialize_oct_handler fs d.

End Dataset.

From stdpp Require pretty.

(** ** Further operations of the domain reader and the index *)


Section DomainLevelCount.
Context {F : Float64} {O : OctreeContainer}.






End DomainLevelCount.

(** ** Field detection of the hydro handler *)

Section DetectFields.
Context {F : Float64}.
Import Codec.








End DetectFields.

(** ** Concrete instances and files *)

Module Example.
Import Codec.

(** float64 values in units of one half, which is exact for the constants
    and the header shift the sources use. *)
Definition halves : Float64 := {|
  f64 := Z;
  f64_zero := 0;
  f64_half := 1;
  f64_one := 2;
  f64_empty := 0;
  f64_of_bits := fun b => b;
  f64_shift := fun i => i - 1;
  f64_sub := Z.sub;
  f64_min := fun l => foldr Z.min (default 0 (head l)) l;
  f64_max := fun l => foldr Z.max (default 0 (head l)) l;
  f64_nonzero := fun x => negb (x =? 0)
|}.

(** A container that counts: it tracks [toy_domains] domains, declines
    octs of a domain beyond them, and has room for [toy_room] more octs.
    A selector predicate lists the domains it overlaps and the number of
    cells it selects. *)
Record toy := {
  toy_domains : Z;
  toy_room : Z;
  toy_octs : Z
}.

Definition toy_container (room : Z) : @OctreeContainer halves := {|
  oct := toy;
  pred := list Z * Z;
  oct_new := fun _ _ _ =>
    {| toy_domains := 0; toy_room := room; toy_octs := 0 |};
  num_domains := toy_domains;
  allocate_domains := fun h counts _ =>
    {| toy_domains := Z.of_nat (length counts);
       toy_room := toy_room h; toy_octs := toy_octs h |};
  oct_add := fun h dom _ pos =>
    if dom >? toy_domains h then (0, h)
    else
      let n := Z.min (Z.of_nat (length (@pos_x halves pos))) (toy_room h) in
      (n, {| toy_domains := toy_domains h;
             toy_room := toy_room h - n; toy_octs := toy_octs h + n |});
  finalize := fun h => h;
  domain_identify := fun _ sel => fst (sel_pred sel);
  count_oct_cells := fun sel _ _ => snd (sel_pred sel);
  file_index_octs := fun _ _ _ _ => ([], [], []);
  fill_level := fun _ _ _ _ _ tr _ => tr
|}.

(** A well-framed record. *)
Definition rec_of (vals : list Z) : record :=
  {| rec_lead := 4 * N.of_nat (length vals);
     rec_vals := vals;
     rec_trail := 4 * N.of_nat (length vals) |}.

(** A header schema with the attributes the module uses: ncpu, nlevelmax,
    nboundary, nx and numbl, one record each. *)
Definition read_header (f : stream)
  : result (Z * Z * Z * (Z * Z * Z) * list Z * stream) :=
  '(h_ncpu, f) ← read_scalar f;
  '(h_nlevelmax, f) ← read_scalar f;
  '(h_nboundary, f) ← read_scalar f;
  '(v, f) ← read_array f 3;
  '(flat, f) ← read_vector f;
  match v with
  | [i; j; k] => Ok (h_ncpu, h_nlevelmax, h_nboundary, (i, j, k), flat, f)
  | _ => Raise CorruptRecordError
  end.

(** The part of an AMR file before the oct blocks. *)
Definition amr_prefix (h_ncpu h_nlevelmax : Z) (flat : list Z)
  : list record :=
  [ rec_of [h_ncpu]; rec_of [h_nlevelmax]; rec_of [0]; rec_of [3; 3; 3];
    rec_of flat; rec_of [];
    rec_of [0; 0; 0; 0; 0]; rec_of [104; 105];
    rec_of []; rec_of []; rec_of []; rec_of [] ].

(** One oct block of a one-dimensional dataset: index vector, two link
    vectors, the x coordinates, 1 + 2 + 6 bookkeeping vectors. *)
Definition amr_block (xs : list Z) : list record :=
  [ rec_of (seqZ 1 (Z.of_nat (length xs))); rec_of []; rec_of []; rec_of xs ]
  ++ replicate 9 (rec_of []).

Definition dataset_1d (lmin : Z) : @dataset halves :=
  @Build_dataset halves "info_00001.txt" None lmin 1
    [2 ^ (lmin + 1); 1; 1] [0; 0; 0] [2; 2; 2] 1 "hilbert".

Fixpoint disk (files : list (string * list record)) : filesystem :=
  fun path =>
    match files with
    | [] => None
    | (p, file) :: rest =>
        if String.eqb p path then Some file else disk rest path
    end.

(** One level, one cpu, one block of two octs; the container has room for
    [room] octs. *)
Definition amr_one_block : list record :=
  amr_prefix 1 1 [2] ++ amr_block [5; 7].

Definition fs_one_block : filesystem :=
  disk [("amr_00001.out00001", amr_one_block)].

Definition domain_one_block (room : Z)
  : @domain_file halves (toy_container room) :=
  @Build_domain_file halves (toy_container room)
    (dataset_1d 0) 1 "amr_00001.out00001"
    {| ncpu := 1; nlevelmax := 1; nboundary := 0; nx := (3, 3, 3);
       numbl := [[2]] |}
    [0] 152 2 [2] [] None 0.

(** The same domain after its octs were read. *)
Definition domain_read (room : Z)
  : @domain_file halves (toy_container room) :=
  @Build_domain_file halves (toy_container room)
    (dataset_1d 0) 1 "amr_00001.out00001"
    {| ncpu := 1; nlevelmax := 1; nboundary := 0; nx := (3, 3, 3);
       numbl := [[2]] |}
    [0] 152 2 [2] []
    (Some {| toy_domains := 1; toy_room := room - 2; toy_octs := 2 |}) 0.

(** The scan state when the first block is reached. *)
Definition scan_start (room : Z) : @scan halves (toy_container room) :=
  @Build_scan halves (toy_container room)
    (seek (open amr_one_block) 152)
    {| toy_domains := 1; toy_room := room; toy_octs := 0 |}
    0.

(** A record of 8-byte elements. *)
Definition rec_d (vals : list Z) : record :=
  {| rec_lead := 8 * N.of_nat (length vals);
     rec_vals := vals;
     rec_trail := 8 * N.of_nat (length vals) |}.

(** The hydro file of that domain: six header records, then one block for
    (level 0, cpu 0) with a cache count of 2 and, for one variable in one
    dimension, two vectors of two values. *)
Definition hydro_one_block : list record :=
  [ rec_of [1]; rec_of [1]; rec_of [1]; rec_of [1]; rec_of [0]; rec_d [0] ]
  ++ [ rec_of [1]; rec_of [2]; rec_d [10; 11]; rec_d [20; 21] ].

Definition hydro_attrs : list (string * nat * string) :=
  [ ("ncpu", 1%nat, "i"); ("nvar", 1%nat, "i"); ("ndim", 1%nat, "i");
    ("nlevelmax", 1%nat, "i"); ("nboundary", 1%nat, "i");
    ("gamma", 1%nat, "d") ].

Definition hydro_handler : field_handler :=
  {| fh_domain_id := 1;
     fname := "hydro_00001.out00001";
     attrs := hydro_attrs;
     nvar := 1;
     field_list := [("ramses", "Density")];
     _offset := None;
     _level_count := None |}.

Definition fs_hydro : filesystem :=
  disk [ ("amr_00001.out00001", amr_one_block);
         ("hydro_00001.out00001", hydro_one_block) ].

(** The index when the first block of the hydro file is reached. *)
Definition index_start : index :=
  {| ix_file := seek (open hydro_one_block) 76;
     ix_offset := [-1];
     ix_count := [0] |}.

End Example.

Module OctCountsExample.
Import Example.

(** Two levels, one cpu, three octs at level 0 and four at level 1; the
    dataset starts at level 1. *)
Definition fs : filesystem := disk [("amr_00001.out00001", amr_prefix 1 2 [3; 4])].

Definition parsed : traced event domain_file :=
  @_read_amr_header halves (toy_container 0) read_header fs
    (dataset_1d 1) 1 "amr_00001.out00001".

(** What the header parses to. *)
Definition dom : @domain_file halves (toy_container 0) :=
  @Build_domain_file halves (toy_container 0)
    (dataset_1d 1) 1 "amr_00001.out00001"
    {| ncpu := 1; nlevelmax := 2; nboundary := 0; nx := (3, 3, 3);
       numbl := [[3]; [4]] |}
    [0; 0] 156 4 [4] [] None 0.

End OctCountsExample.

Module InclusionExample.
Import Example.

(** A selector pinned to domain 1 whose predicate overlaps no domain. *)
Definition pinned : selector (list Z * Z) :=
  {| sel_domain_id := Some 1; sel_pred := ([], 0) |}.

Definition request : @data_object halves (toy_container 2) :=
  @Build_data_object halves (toy_container 2)
    "region" None pinned None None.

End InclusionExample.

Module OrderingExample.
Import Example.

(** An info file declaring the planar ordering, one cpu. *)
Definition planar : info_header :=
  {| rh_ncpu := 1; rh_ndim := Some 1; rh_levelmin := 1; rh_levelmax := 1;
     rh_ordering_type := "planar" |}.

Definition read_info (path : string) : result info_header := Ok planar.
Definition read_hilbert_indices (path : string) (n : Z) : result unit :=
  Ok tt.

(** The corners of the unit box. *)
Definition unit_corners : list (list (@f64 halves)) :=
  [[0; 0; 0]; [2; 2; 2]].

(** Loading the planar dataset whose domain 1 is the one-block example,
    with a selector that names cpu 0. *)
Definition load_with (bbox : option (@bbox_value halves))
  : traced event (@ramses_index halves (toy_container 2)) :=
  @load halves (toy_container 2) read_info read_hilbert_indices
    (fun _ _ => [0]) (fun _ _ => "amr_00001.out00001")
    (fun _ _ => ([], Ok [])) (fun _ _ _ => ([], Ok tt))
    read_header fs_one_block "info_00001.txt" bbox.

End OrderingExample.

Module FillExample.
Import Example.

(** A selector pinned to domain 1 that selects no cell. *)
Definition no_cells : selector (list Z * Z) :=
  {| sel_domain_id := Some 1; sel_pred := ([1], 0) |}.

Definition subset : @domain_subset halves (toy_container 2) :=
  @Build_domain_subset halves (toy_container 2) "region" (domain_read 2).

(** [fill] on the example hydro file, for the field Density, under the
    debugger session [dbg]. *)
Definition run (dbg : list dbg_cmd) : traced event fill_state :=
  @fill halves (toy_container 2) fs_hydro subset
    (Codec.open hydro_one_block) [("ramses", "Density")] no_cells
    hydro_handler dbg.

End FillExample.

(** *** Further example data *)

Module Example2.
Import Codec Example.








End Example2.

(** ** Vocabulary of the properties *)

(** [numbl[l][c]] *)
Definition cell (t : list (list Z)) (l c : Z) : Z :=
  default 0 (row ← t !! Z.to_nat l; row !! Z.to_nat c).

(** The sum of column [c] over the given levels. *)
Definition level_sum (t : list (list Z)) (levels : list Z) (c : Z) : Z :=
  sum_list (map (fun l => cell t l c) levels).

(** The levels at or above [m] among [n] levels. *)
Definition levels_from (m n : Z) : list Z :=
  filter (fun l => m <= l) (range n).


Section Vocabulary.
Context {F : Float64} {O : OctreeContainer}.

(** What [_error_check] prints before it raises. *)
Definition diagnostic (d : domain_file) (cpu level : Z) (pos : positions)
    (n ng : Z) (nn : f64 * f64 * f64) : list event :=
  map EvPrint
    [ LBanner; LToAdd ng; LAdded n; LLevel level; LCpu cpu;
      LExtent 0 (f64_min (pos_x pos)) (f64_max (pos_x pos));
      LExtent 1 (f64_min (pos_y pos)) (f64_max (pos_y pos));
      LExtent 2 (f64_min (pos_z pos)) (f64_max (pos_z pos));
      LDomainLeft (domain_left_edge (ds d));
      LDomainRight (domain_right_edge (ds d));
      LOffset nn.1.1 nn.1.2 nn.2;
      LHeaderBanner; LHeader (amr_hdr d) ].

End Vocabulary.

(** The accessors of a field handler, and a sequence of calls to them on
    the same handler. *)
Inductive accessor := GetOffset | GetLevelCount.

Section Accessors.
Import Codec.
Context {F : Float64} {O : OctreeContainer}.

Definition access (dom : domain_file) (fs : filesystem)
    (h : field_handler) (a : accessor)
  : traced event (list Z * field_handler) :=
  match a with
  | GetOffset => offset dom fs h
  | GetLevelCount => level_count dom fs h
  end.

Fixpoint access_all (dom : domain_file) (fs : filesystem)
    (h : field_handler) (calls : list accessor)
  : traced event (list (list Z) * field_handler) :=
  match calls with
  | [] => mret ([], h)
  | a :: calls' =>
      '(v, h) ← access dom fs h a;
      '(vs, h) ← access_all dom fs h calls';
      mret (v :: vs, h)
  end.

(** The block [(level, cpu)] belongs to the domain the handler indexes. *)
Definition owned (dom : domain_file) (h : field_handler)
    (level cpu : Z) : Prop :=
  cpu + 1 = fh_domain_id h /\ level >= min_level (ds dom).

(** The outcome of a domain's inclusion test, when it has one: decided by
    the selector's [domain_id] if it carries one, by the container of the
    domain otherwise. *)
Definition selected (d : domain_file) (sel : selector pred) : bool :=
  match sel_domain_id sel with
  | Some i => i =? domain_id d
  | None =>
      match oct_handler d with
      | Some h => bool_decide (domain_id d ∈ domain_identify h sel)
      | None => false
      end
  end.

(** The domain's own container finds the domain in the selection. *)
Definition overlaps (d : domain_file) (sel : selector pred) : Prop :=
  exists h, oct_handler d = Some h /\ domain_id d ∈ domain_identify h sel.

Definition subset_of (dobj : data_object) (d : domain_file)
  : domain_subset :=
  {| sub_base_region := default (obj_name dobj) (base_region dobj);
     sub_domain := d |}.

(** The invariant of the offset scan: both arrays keep their length, the
    file position is not negative, and an offset is the sentinel exactly
    where the cell count is zero. *)
Definition index_inv (n : nat) (s : index) : Prop :=
  length (ix_offset s) = n /\ length (ix_count s) = n /\
  0 <= tell (ix_file s) /\
  forall i x y,
    ix_offset s !! i = Some x -> ix_count s !! i = Some y ->
    (x = -1 <-> y = 0).

(** The keys of a mapping and the length of the array under each key. *)
Definition shape (m : gmap string (list f64)) : gmap string nat :=
  length <$> m.

(** The container's scatter writes into the arrays it is given: it adds
    no key, drops none and resizes no array. *)
Definition scatter_in_place : Prop :=
  forall h level levels cell_inds file_inds tr tmp,
    shape (fill_level h level levels cell_inds file_inds tr tmp) = shape tr.

(** The state in which the offset scan enters its loops: the file after
    the header attributes, every offset at the sentinel, every cell count
    at zero. *)
Definition scan_entry (dom : domain_file) (f : stream) : index :=
  let n := nlevelmax (amr_hdr dom) - min_level (ds dom) in
  {| ix_file := f;
     ix_offset := replicate (Z.to_nat n) (-1);
     ix_count := replicate (Z.to_nat n) 0 |}.

(** The scan started in [s0] is about to read the block [(level, cpu)] in
    state [s]: it has scanned the levels before [level] and, within
    [level], the cpus before [cpu]. *)
Definition reaches (dom : domain_file) (h : field_handler) (s0 : index)
    (level cpu : Z) (s : index) : Prop :=
  0 <= level < nlevelmax (amr_hdr dom) /\
  0 <= cpu < nboundary (amr_hdr dom) + ncpu (amr_hdr dom) /\
  exists s1,
    for_each (offset_level dom h) s0 (range level) = Ok s1 /\
    for_each (offset_block dom h level) s1 (range cpu) = Ok s.

(** The scan started in [s0] sees a block with a cache count that is not
    zero at [(level, cpu)]: reaching that block, it reads a header pair
    whose cache count is [nc <> 0], and the file is then at [pos]. *)
Definition sees (dom : domain_file) (h : field_handler) (s0 : index)
    (level cpu pos nc : Z) : Prop :=
  exists s il f1 f2,
    reaches dom h s0 level cpu s /\
    read_scalar (ix_file s) = Ok (il, f1) /\
    read_scalar f1 = Ok (nc, f2) /\
    nc <> 0 /\ pos = tell f2.

End Accessors.

(** ** Vocabulary of the further properties *)


Section OffsetVocabulary.
Context {F : Float64} {O : OctreeContainer}.
Import Codec.
Variable dom : domain_file.
Variable h : field_handler.




End OffsetVocabulary.






(** * Properties *)

(** ** The monads *)

Lemma bind_Ok {A B} (c : result A) (k : A -> result B) (b : B) :
  c ≫= k = Ok b -> exists a, c = Ok a /\ k a = Ok b.
Proof. destruct c as [a|e]; simpl; [eauto | discriminate]. Qed.

Lemma bind_Raise {A B} (c : result A) (k : A -> result B) (e : error) :
  c = Raise e -> c ≫= k = Raise e.
Proof. intros ->. reflexivity. Qed.

Lemma tbind_Ok {E A B} (c : traced E A) (k : A -> traced E B) t (b : B) :
  c ≫= k = (t, Ok b) ->
  exists t1 a t2, c = (t1, Ok a) /\ k a = (t2, Ok b) /\ t = t1 ++ t2.
Proof.
  destruct c as [t1 [a|e]]; simpl; [|discriminate].
  destruct (k a) as [t2 r] eqn:Hk. intros [= <- ->]. eauto 6.
Qed.

Lemma quiet_Ok {E A} (r : result A) (t : list E) (a : A) :
  quiet r = (t, Ok a) -> r = Ok a /\ t = [].
Proof. unfold quiet. intros [= <- ->]. auto. Qed.

(** Once the body raises, the rest of the loop is not run. *)
Lemma for_each_abort {E A S} (body : S -> A -> traced E S)
    (pre post : list A) (a : A) (s s' : S) t t' e :
  for_each body s pre = (t, Ok s') ->
  body s' a = (t', Raise e) ->
  for_each body s (pre ++ a :: post) = (t ++ t', Raise e).
Proof.
  revert s t. induction pre as [|x pre IH]; intros s t Hpre Hbody; simpl in *.
  - injection Hpre as <- <-. rewrite Hbody. reflexivity.
  - apply tbind_Ok in Hpre as (t1 & s1 & t2 & Hx & Hrest & ->).
    rewrite Hx. simpl. rewrite (IH _ _ Hrest Hbody).
    rewrite app_assoc. reflexivity.
Qed.

Lemma for_each_abort_result {A S} (body : S -> A -> result S)
    (pre post : list A) (a : A) (s s' : S) e :
  for_each body s pre = Ok s' ->
  body s' a = Raise e ->
  for_each body s (pre ++ a :: post) = Raise e.
Proof.
  revert s. induction pre as [|x pre IH]; intros s Hpre Hbody; simpl in *.
  - injection Hpre as <-. rewrite Hbody. reflexivity.
  - apply bind_Ok in Hpre as (s1 & Hx & Hrest).
    rewrite Hx. simpl. exact (IH _ Hrest Hbody).
Qed.

(** An invariant of the loop body is an invariant of the loop. *)
Lemma for_each_invariant {A S} (body : S -> A -> result S) (I : S -> Prop)
    (l : list A) (s s' : S) :
  (forall s a s', I s -> body s a = Ok s' -> I s') ->
  I s -> for_each body s l = Ok s' -> I s'.
Proof.
  intros Hstep. revert s. induction l as [|a l IH]; intros s Hs H; simpl in H.
  - injection H as <-. exact Hs.
  - apply bind_Ok in H as (s1 & Ha & Hl). eauto.
Qed.

Lemma length_chunks rows cols a : length (chunks rows cols a) = rows.
Proof. revert a. induction rows; intros; simpl; auto. Qed.

Lemma chunks_row_length rows cols a row :
  length a = (rows * cols)%nat -> row ∈ chunks rows cols a ->
  length row = cols.
Proof.
  revert a. induction rows as [|r IH]; intros a Hlen Hin; simpl in *.
  - inversion Hin.
  - apply elem_of_cons in Hin as [-> | Hin].
    + rewrite length_take. lia.
    + apply (IH (drop cols a)); [rewrite length_drop; lia | done].
Qed.

Lemma reshape_shape a r c t :
  reshape a r c = Ok t ->
  0 <= r /\ 0 <= c /\ length t = Z.to_nat r /\
  Forall (fun row => length row = Z.to_nat c) t.
Proof.
  unfold reshape.
  destruct (0 <=? r) eqn:Hr; [|discriminate].
  destruct (0 <=? c) eqn:Hc; [|discriminate].
  destruct (Z.of_nat (length a) =? r * c) eqn:Hl; [|discriminate].
  simpl. intros [= <-].
  apply Z.leb_le in Hr, Hc. apply Z.eqb_eq in Hl.
  repeat split; try done.
  - apply length_chunks.
  - apply Forall_forall. intros row Hin.
    apply (chunks_row_length (Z.to_nat r) _ a); [nia | done].
Qed.

Lemma length_sum_axis0 cols t :
  Forall (fun row => length row = Z.to_nat cols) t ->
  length (sum_axis0 cols t) = Z.to_nat cols.
Proof.
  unfold sum_axis0. induction 1 as [|row t Hrow _ IH]; simpl.
  - apply length_replicate.
  - rewrite length_zip_with. lia.
Qed.

Lemma sum_axis0_lookup cols t (c : nat) :
  Forall (fun row => length row = Z.to_nat cols) t ->
  (c < Z.to_nat cols)%nat ->
  sum_axis0 cols t !! c = Some (sum_list (map (fun row => row !!! c) t)).
Proof.
  intros Hall Hc. induction Hall as [|row t Hrow Hall IH]; simpl.
  - unfold sum_axis0. simpl. rewrite lookup_replicate_2; done.
  - unfold sum_axis0 in *. simpl. rewrite lookup_zip_with, IH.
    destruct (lookup_lt_is_Some_2 row c) as [x Hx]; [lia|].
    rewrite Hx. simpl. rewrite (list_lookup_total_correct _ _ _ Hx). done.
Qed.

Lemma filter_all {A} (P : A -> Prop) `{forall x, Decision (P x)} l :
  Forall P l -> filter P l = l.
Proof.
  induction 1 as [|x l Hx _ IH]; [done|].
  rewrite filter_cons_True by done. by rewrite IH.
Qed.

Lemma filter_none {A} (P : A -> Prop) `{forall x, Decision (P x)} l :
  Forall (fun x => ~ P x) l -> filter P l = [].
Proof.
  induction 1 as [|x l Hx _ IH]; [done|].
  by rewrite filter_cons_False.
Qed.

Lemma levels_from_seqZ m n :
  0 <= m -> levels_from m n = seqZ m (n - m).
Proof.
  intros Hm. unfold levels_from, range.
  destruct (Z.le_gt_cases n m) as [Hle | Hgt].
  - rewrite (seqZ_nil m) by lia.
    apply filter_none, Forall_forall.
    intros l Hl. apply elem_of_seqZ in Hl. lia.
  - replace n with (m + (n - m)) at 1 by lia.
    rewrite seqZ_app by lia.
    rewrite filter_app, Z.add_0_l.
    rewrite (filter_none _ (seqZ 0 m)).
    + simpl. apply filter_all, Forall_forall.
      intros l Hl. apply elem_of_seqZ in Hl. lia.
    + apply Forall_forall. intros l Hl. apply elem_of_seqZ in Hl. lia.
Qed.

Lemma map_cell_drop t (cols : Z) (k c : nat) :
  Forall (fun row => length row = Z.to_nat cols) t ->
  (c < Z.to_nat cols)%nat ->
  map (fun l => cell t l (Z.of_nat c))
      (seqZ (Z.of_nat k) (Z.of_nat (length t) - Z.of_nat k))
  = map (fun row => row !!! c) (drop k t).
Proof.
  intros Hall Hc. apply list_eq. intros i.
  rewrite !list_lookup_fmap, lookup_drop.
  destruct (decide (Z.of_nat i < Z.of_nat (length t) - Z.of_nat k)) as [Hi|Hi].
  - rewrite lookup_seqZ_lt by lia. simpl.
    destruct (lookup_lt_is_Some_2 t (k + i)) as [row Hrow]; [lia|].
    rewrite Hrow. simpl. f_equal. unfold cell.
    replace (Z.to_nat (Z.of_nat k + Z.of_nat i)) with (k + i)%nat by lia.
    rewrite Hrow, Nat2Z.id. simpl.
    assert (length row = Z.to_nat cols) as Hlen.
    { eapply (proj1 (Forall_forall _ _) Hall), list_elem_of_lookup_2, Hrow. }
    destruct (lookup_lt_is_Some_2 row c) as [x Hx]; [lia|].
    rewrite Hx. simpl. symmetry. by apply list_lookup_total_correct.
  - rewrite lookup_seqZ_ge by lia.
    rewrite (lookup_ge_None_2 t) by lia. done.
Qed.

(** ** Oct counts of the AMR header *)

(** Inversion of a successful run, one bind at a time. *)
Ltac inv_ok :=
  repeat match goal with
  | H : quiet _ = (_, Ok _) |- _ =>
      apply quiet_Ok in H; destruct H as [? ?]; subst
  | H : mret _ = (_, Ok _) |- _ =>
      unfold mret, traced_ret in H; injection H as ? ?; subst
  | H : mret _ = Ok _ |- _ =>
      unfold mret, result_ret in H; injection H as ?; subst
  | H : Ok _ = Ok _ |- _ => injection H as ?; subst
  | H : Raise _ = Ok _ |- _ => discriminate H
  | H : (_, Raise _) = (_, Ok _) |- _ => discriminate H
  | H : _ ≫= _ = (_, Ok _) |- _ =>
      apply tbind_Ok in H; destruct H as (? & ? & ? & ? & ? & ?); subst
  | H : _ ≫= _ = Ok _ |- _ =>
      apply bind_Ok in H; destruct H as (? & ? & ?)
  | H : (let '(_, _) := ?p in _) = _ |- _ => destruct p
  | H : (match ?p with (_, _) => _ end) = _ |- _ => destruct p
  end.

Section OctCounts.
Context {F : Float64} {O : OctreeContainer}.
Variable read_header_attrs :
  Codec.stream ->
  result (Z * Z * Z * (Z * Z * Z) * list Z * Codec.stream).

Lemma read_amr_header_inv fs d dom_id path t dom :
  _read_amr_header read_header_attrs fs d dom_id path = (t, Ok dom) ->
  let h := amr_hdr dom in
  0 <= nlevelmax h /\ 0 <= ncpu h /\
  length (numbl h) = Z.to_nat (nlevelmax h) /\
  Forall (fun row => length row = Z.to_nat (ncpu h)) (numbl h) /\
  ds dom = d /\ domain_id dom = dom_id /\
  column (ncpu h) (slice_from (numbl h) (min_level d)) (dom_id - 1)
    = Ok (map (fun row => row !!! Z.to_nat
                 (if dom_id - 1 <? 0 then dom_id - 1 + ncpu h
                  else dom_id - 1))
            (slice_from (numbl h) (min_level d))) /\
  local_oct_count dom =
    sum_list (map (fun row => row !!! Z.to_nat
                     (if dom_id - 1 <? 0 then dom_id - 1 + ncpu h
                      else dom_id - 1))
                (slice_from (numbl h) (min_level d))) /\
  total_oct_count dom =
    sum_axis0 (ncpu h) (slice_from (numbl h) (min_level d)).
Proof.
  unfold _read_amr_header. intros H. inv_ok.
  match goal with H : reshape _ _ _ = Ok _ |- _ =>
    apply reshape_shape in H; destruct H as (? & ? & ? & ?) end.
  match goal with H : column _ _ _ = Ok _ |- _ =>
    pose proof H as Hcol; unfold column in H;
    destruct (_ && _) eqn:?; [|discriminate]; injection H as <- end.
  simpl. repeat split; try done.
Qed.

Lemma slice_from_drop {A} (t : list A) (m : Z) :
  0 <= m -> slice_from t m = drop (Z.to_nat m) t.
Proof.
  intros Hm. unfold slice_from, slice_start.
  destruct (m <? 0) eqn:E; [apply Z.ltb_lt in E; lia|].
  destruct (Nat.le_gt_cases (Z.to_nat m) (length t)).
  - by rewrite Nat.min_l.
  - rewrite Nat.min_r by lia. by rewrite !drop_ge by lia.
Qed.

Lemma level_sum_slice (t : list (list Z)) (cols m c : Z) :
  Forall (fun row => length row = Z.to_nat cols) t ->
  0 <= m -> 0 <= c < cols ->
  level_sum t (levels_from m (Z.of_nat (length t))) c
  = sum_list (map (fun row => row !!! Z.to_nat c) (slice_from t m)).
Proof.
  intros Hall Hm Hc. unfold level_sum.
  rewrite levels_from_seqZ, slice_from_drop by done.
  rewrite <- (map_cell_drop t cols) by (done || lia).
  by rewrite !Z2Nat.id by lia.
Qed.

Lemma read_amr_frame fs dom t dom' :
  _read_amr fs dom = (t, Ok dom') ->
  local_oct_count dom' = local_oct_count dom /\
  total_oct_count dom' = total_oct_count dom.
Proof.
  unfold _read_amr. intros H0.
  destruct (nx (amr_hdr dom)) as [[i j] k].
  inv_ok. done.
Qed.

(** C1, amended.  After the AMR header of a domain is parsed (for a
    dataset whose minimum level is not negative and a 1-indexed domain
    id), [total_oct_count] has one entry per cpu and the entry of each cpu
    is the sum of that cpu's column of [numbl] over the levels at or above
    [min_level]; [local_oct_count] is the sum over the same levels of the
    column of this domain; reading the octs afterwards leaves both as they
    are. *)
Theorem read_amr_header_oct_counts fs d dom_id path t dom :
  _read_amr_header read_header_attrs fs d dom_id path = (t, Ok dom) ->
  0 <= min_level d ->
  1 <= dom_id ->
  let h := amr_hdr dom in
  let levels := levels_from (min_level d) (nlevelmax h) in
  length (total_oct_count dom) = Z.to_nat (ncpu h) /\
  (forall c, 0 <= c < ncpu h ->
     total_oct_count dom !! Z.to_nat c
     = Some (level_sum (numbl h) levels c)) /\
  local_oct_count dom = level_sum (numbl h) levels (dom_id - 1) /\
  (forall t' dom', _read_amr fs dom = (t', Ok dom') ->
     local_oct_count dom' = local_oct_count dom /\
     total_oct_count dom' = total_oct_count dom).
Proof.
  intros Hrun Hmin Hid.
  destruct (read_amr_header_inv _ _ _ _ _ _ Hrun)
    as (Hn & Hc & Hlen & Hall & Hds & _ & Hcol & Hloc & Htot).
  simpl. rewrite Htot, Hloc.
  assert (nlevelmax (amr_hdr dom) = Z.of_nat (length (numbl (amr_hdr dom))))
    as -> by lia.
  assert (Forall (fun row => length row = Z.to_nat (ncpu (amr_hdr dom)))
            (slice_from (numbl (amr_hdr dom)) (min_level d))) as Hall'.
  { rewrite slice_from_drop by done. by apply Forall_drop. }
  split; [by apply length_sum_axis0|]. split; [|split].
  - intros c Hc'. rewrite sum_axis0_lookup by (done || lia).
    f_equal. symmetry. by apply (level_sum_slice _ (ncpu (amr_hdr dom))).
  - unfold column in Hcol.
    destruct (dom_id - 1 <? 0) eqn:E; [apply Z.ltb_lt in E; lia|].
    destruct ((0 <=? dom_id - 1) && (dom_id - 1 <? ncpu (amr_hdr dom)))
      eqn:E'; [|discriminate].
    apply andb_true_iff in E' as [_ E']. apply Z.ltb_lt in E'.
    symmetry. apply (level_sum_slice _ (ncpu (amr_hdr dom))); (done || lia).
  - intros t' dom' Hoct. rewrite <- Hloc, <- Htot.
    by apply (read_amr_frame fs dom t').
Qed.

End OctCounts.


Lemma oct_counts_example_parsed :
  OctCountsExample.parsed
  = ([EvOpen "amr_00001.out00001"], Ok OctCountsExample.dom).
Proof. vm_compute. reflexivity. Qed.

Lemma read_amr_header_oct_counts_witness :
  total_oct_count OctCountsExample.dom !! Z.to_nat 0
  = Some (level_sum [[3]; [4]] (levels_from 1 2) 0) /\
  local_oct_count OctCountsExample.dom
  = level_sum [[3]; [4]] (levels_from 1 2) (1 - 1).
Proof.
  assert (0 <= 1) as H0 by lia.
  assert (1 <= 1) as H1 by lia.
  destruct (@read_amr_header_oct_counts Example.halves
              (Example.toy_container 0) Example.read_header
              OctCountsExample.fs (Example.dataset_1d 1) 1
              "amr_00001.out00001" _ OctCountsExample.dom
              oct_counts_example_parsed H0 H1)
    as (_ & Htot & Hloc & _).
  split; [apply (Htot 0); simpl; lia | exact Hloc].
Defined.

(** C1 as stated fails: with a minimum level of 1 the entry of cpu 0 is
    4, the octs of level 1, while the column summed over all levels is
    7. *)
Lemma total_oct_count_all_levels_counterexample :
  exists t dom,
    OctCountsExample.parsed = (t, Ok dom) /\
    total_oct_count dom !! 0%nat = Some 4 /\
    level_sum (numbl (amr_hdr dom)) (range (nlevelmax (amr_hdr dom))) 0 = 7 /\
    total_oct_count dom !! 0%nat
    <> Some (level_sum (numbl (amr_hdr dom))
               (range (nlevelmax (amr_hdr dom))) 0).
Proof.
  exists [EvOpen "amr_00001.out00001"], OctCountsExample.dom.
  split; [exact oct_counts_example_parsed|].
  vm_compute. repeat split; congruence.
Qed.

(** ** Validation of the insertion count *)

Section ErrorCheck.
Context {F : Float64} {O : OctreeContainer}.

Lemma error_check_pass d h cpu level pos n ng nn :
  n = ng \/ cpu + 1 > num_domains h ->
  _error_check d h cpu level pos n ng nn = ([], Ok tt).
Proof.
  intros Hok. unfold _error_check.
  destruct ((n =? ng) || (cpu + 1 >? num_domains h)) eqn:E; [done|].
  apply orb_false_iff in E as [E1 E2].
  apply Z.eqb_neq in E1. rewrite Z.gtb_ltb in E2. apply Z.ltb_ge in E2. lia.
Qed.

Lemma error_check_fail d h cpu level pos n ng nn :
  ~ (n = ng \/ cpu + 1 > num_domains h) ->
  _error_check d h cpu level pos n ng nn
  = (diagnostic d cpu level pos n ng nn, Raise RuntimeError).
Proof.
  intros Hbad. unfold _error_check.
  destruct ((n =? ng) || (cpu + 1 >? num_domains h)) eqn:E.
  - exfalso. apply Hbad. apply orb_true_iff in E as [E | E].
    + left. by apply Z.eqb_eq.
    + right. rewrite Z.gtb_ltb in E. apply Z.ltb_lt in E. lia.
  - by destruct nn as [[ox oy] oz].
Qed.

(** C2.  In the oct-reading scan, take a block at a level at or above
    [min_level] whose oct count [ng] is not zero, whose records were read
    into [pos], and for which the container returned the count [n].  The
    scan goes on to the next block, printing nothing, exactly when
    [n = ng] or [cpu + 1] exceeds the container's domain count.
    Otherwise the block prints the diagnostic (counts, level, cpu, the
    extent of each axis, the domain edges, the applied shift, the header)
    and raises [RuntimeError], and so do the loop over the cpus of the
    level and the loop over the levels, whatever blocks come after. *)
Theorem scan_block_error_check d nn level s cpu ng pos f n h :
  _ng d cpu level = Ok ng ->
  ng <> 0 ->
  read_block d (sc_file s) ng nn = Ok (pos, f) ->
  level >= min_level (ds d) ->
  oct_add (sc_oct s) (cpu + 1) (level - min_level (ds d)) pos = (n, h) ->
  let passes := n = ng \/ cpu + 1 > num_domains h in
  let report := diagnostic d cpu level pos n ng nn in
  (is_ok (scan_block d nn level s cpu).2 <-> passes) /\
  (passes ->
   exists s', scan_block d nn level s cpu = ([], Ok s') /\
              sc_file s' = f /\ sc_oct s' = h) /\
  (~ passes ->
   scan_block d nn level s cpu = (report, Raise RuntimeError) /\
   (forall before after s0 t0,
      for_each (scan_block d nn level) s0 before = (t0, Ok s) ->
      for_each (scan_block d nn level) s0 (before ++ cpu :: after)
      = (t0 ++ report, Raise RuntimeError)) /\
   (forall before after s0 t0 lbefore lafter s00 t00,
      for_each (scan_block d nn level) s0 before = (t0, Ok s) ->
      range (nboundary (amr_hdr d) + ncpu (amr_hdr d))
      = before ++ cpu :: after ->
      for_each (scan_level d nn) s00 lbefore = (t00, Ok s0) ->
      for_each (scan_level d nn) s00 (lbefore ++ level :: lafter)
      = (t00 ++ t0 ++ report, Raise RuntimeError))).
Proof.
  intros Hng Hnz Hread Hlevel Hadd passes report.
  assert (forall r, _error_check d h cpu level pos n ng nn = r ->
            scan_block d nn level s cpu
            = (r ≫= fun _ => mret
                 {| sc_file := f; sc_oct := h;
                    sc_max_level :=
                      if n >? 0
                      then Z.max (level - min_level (ds d)) (sc_max_level s)
                      else sc_max_level s |})) as Hblock.
  { intros r <-. unfold scan_block. rewrite Hng. simpl.
    destruct (ng =? 0) eqn:E; [apply Z.eqb_eq in E; lia|].
    rewrite Hread. simpl.
    destruct (level >=? min_level (ds d)) eqn:E';
      [|rewrite Z.geb_leb in E'; apply Z.leb_gt in E'; lia].
    rewrite Hadd.
    by destruct (_error_check d h cpu level pos n ng nn) as [out [[]|e]]. }
  assert (~ passes ->
          scan_block d nn level s cpu = (report, Raise RuntimeError))
    as Hfail.
  { intros Hbad. by rewrite (Hblock _ (error_check_fail _ _ _ _ _ _ _ _ Hbad)). }
  assert (passes ->
          exists s', scan_block d nn level s cpu = ([], Ok s') /\
                     sc_file s' = f /\ sc_oct s' = h) as Hpass.
  { intros Hok. rewrite (Hblock _ (error_check_pass _ _ _ _ _ _ _ _ Hok)).
    eexists. split; [reflexivity | done]. }
  split; [|split; [exact Hpass|]].
  - split.
    + intros Hrun.
      assert (passes \/ ~ passes) as [|Hbad] by (unfold passes; lia); [done|].
      rewrite (Hfail Hbad) in Hrun. destruct Hrun.
    + intros Hok. destruct (Hpass Hok) as (s' & -> & _). exact I.
  - intros Hbad. split; [by apply Hfail|]. split.
    + intros before after s0 t0 Hbefore.
      apply (for_each_abort _ _ _ _ _ s); [done | by apply Hfail].
    + intros before after s0 t0 lbefore lafter s00 t00 Hbefore Hrange Hlev.
      apply (for_each_abort _ _ _ _ _ s0); [done|].
      unfold scan_level. rewrite Hrange.
      apply (for_each_abort _ _ _ _ _ s); [done | by apply Hfail].
Qed.

End ErrorCheck.

(** The example header parses to the example domain. *)
Lemma domain_one_block_parsed room :
  @_read_amr_header Example.halves (Example.toy_container room)
    Example.read_header Example.fs_one_block (Example.dataset_1d 0) 1
    "amr_00001.out00001"
  = ([EvOpen "amr_00001.out00001"], Ok (Example.domain_one_block room)).
Proof. reflexivity. Qed.

Lemma scan_block_error_check_witness :
  let d := Example.domain_one_block 1 in
  let s := Example.scan_start 1 in
  exists pos,
    @scan_block Example.halves (Example.toy_container 1) d (2, 2, 2) 0 s 0
    = (diagnostic d 0 0 pos 1 2 (2, 2, 2), Raise RuntimeError).
Proof.
  intros d s. eexists.
  refine (proj1 (proj2 (proj2
    (@scan_block_error_check Example.halves (Example.toy_container 1)
       d (2, 2, 2) 0 s 0 2 _ _ 1 _ eq_refl _ eq_refl _ eq_refl)) _)).
  - lia.
  - vm_compute. congruence.
  - vm_compute. intros [H | H]; congruence.
Defined.

(** ** The record codec *)

Section CodecFacts.
Import Codec.

Lemma next_record_spec f r f' :
  next_record f = Ok (r, f') ->
  ahead f = r :: ahead f' /\ tell f' = tell f + framed_size r /\
  origin f' = origin f /\ rec_lead r = rec_trail r.
Proof.
  unfold next_record. destruct (ahead f) as [|r0 rs]; [discriminate|].
  destruct (rec_lead r0 =? rec_trail r0)%N eqn:E; [|discriminate].
  intros [= <- <-]. apply N.eqb_eq in E. done.
Qed.

Lemma framed_size_pos r : 8 <= framed_size r.
Proof. unfold framed_size. lia. Qed.

(** [skip] passes exactly the requested number of records, each with
    both of its markers. *)
Lemma skip_records_spec n f f' :
  skip_records n f = Ok f' ->
  exists skipped,
    length skipped = n /\
    ahead f = skipped ++ ahead f' /\
    tell f' = tell f + sum_list (map framed_size skipped) /\
    origin f' = origin f.
Proof.
  revert f. induction n as [|n IH]; intros f H; simpl in H.
  - injection H as <-. exists []. simpl. repeat split; try done. lia.
  - apply bind_Ok in H as ([r f1] & Hr & Hrest).
    apply next_record_spec in Hr as (Hahead & Htell & Horigin & _).
    apply IH in Hrest as (skipped & Hlen & Hahead' & Htell' & Horigin').
    exists (r :: skipped). simpl. repeat split.
    + by rewrite Hlen.
    + by rewrite Hahead, Hahead'.
    + rewrite Htell', Htell. lia.
    + congruence.
Qed.

Lemma skip_spec f n f' :
  skip f n = Ok f' ->
  exists skipped,
    length skipped = Z.to_nat n /\
    ahead f = skipped ++ ahead f' /\
    tell f' = tell f + sum_list (map framed_size skipped) /\
    origin f' = origin f.
Proof. apply skip_records_spec. Qed.

Lemma sum_framed_nonneg l : 0 <= sum_list (map framed_size l).
Proof.
  induction l as [|r l IH]; simpl; [lia|].
  pose proof (framed_size_pos r). lia.
Qed.

Lemma skip_tell f n f' : skip f n = Ok f' -> tell f <= tell f'.
Proof.
  intros H. apply skip_spec in H as (l & _ & _ & -> & _).
  pose proof (sum_framed_nonneg l). lia.
Qed.

Lemma read_vector_tell f v f' :
  read_vector f = Ok (v, f') -> tell f < tell f'.
Proof.
  unfold read_vector. intros H.
  apply bind_Ok in H as ([r f1] & Hr & H). injection H as <- <-.
  apply next_record_spec in Hr as (_ & -> & _).
  pose proof (framed_size_pos r). lia.
Qed.

Lemma read_scalar_tell f x f' :
  read_scalar f = Ok (x, f') -> tell f < tell f'.
Proof.
  unfold read_scalar. intros H.
  apply bind_Ok in H as ([v f1] & Hv & H).
  destruct v as [|y [|]]; try discriminate. injection H as <- <-.
  by apply read_vector_tell in Hv.
Qed.

End CodecFacts.

(** ** The field-offset index *)

Section Offsets.
Context {F : Float64} {O : OctreeContainer}.
Import Codec.
Variable dom : domain_file.
Variable h : field_handler.

(** The two outcomes of a block whose header pair was read. *)
Lemma offset_block_empty level s cpu il f1 f2 :
  read_scalar (ix_file s) = Ok (il, f1) ->
  read_scalar f1 = Ok (0, f2) ->
  offset_block dom h level s cpu
  = Ok {| ix_file := f2; ix_offset := ix_offset s;
          ix_count := ix_count s |}.
Proof. intros H1 H2. unfold offset_block. rewrite H1. simpl. by rewrite H2. Qed.

Lemma offset_block_nonempty level s cpu il nc f1 f2 :
  read_scalar (ix_file s) = Ok (il, f1) ->
  read_scalar f1 = Ok (nc, f2) ->
  nc <> 0 ->
  offset_block dom h level s cpu
  = (_ ← (if il =? level + 1 then Ok tt else Raise AssertionError);
     '(off, cnt) ←
        (if (cpu + 1 =? fh_domain_id h) && (level >=? min_level (ds dom))
         then off ← setitem (ix_offset s) (level - min_level (ds dom))
                      (tell f2);
              cnt ← setitem (ix_count s) (level - min_level (ds dom)) nc;
              Ok (off, cnt)
         else Ok (ix_offset s, ix_count s));
     f ← skip f2 (2 ^ Z.of_nat (dimensionality (ds dom)) * nvar h);
     Ok {| ix_file := f; ix_offset := off; ix_count := cnt |}).
Proof.
  intros H1 H2 Hnc. unfold offset_block. rewrite H1. simpl. rewrite H2.
  simpl. destruct (nc =? 0) eqn:E; [apply Z.eqb_eq in E; lia | done].
Qed.

Lemma owned_test level cpu :
  (cpu + 1 =? fh_domain_id h) && (level >=? min_level (ds dom)) = true
  <-> owned dom h level cpu.
Proof.
  unfold owned. rewrite andb_true_iff, Z.eqb_eq, Z.geb_leb, Z.leb_le. lia.
Qed.

Lemma setitem_Ok {A} (a : list A) (i : Z) (x : A) a' :
  0 <= i -> setitem a i x = Ok a' ->
  i < Z.of_nat (length a) /\ a' = <[Z.to_nat i := x]> a.
Proof.
  intros Hi. unfold setitem.
  destruct (i <? 0) eqn:E; [apply Z.ltb_lt in E; lia|].
  destruct ((0 <=? i) && (i <? Z.of_nat (length a))) eqn:E'; [|discriminate].
  apply andb_true_iff in E' as [_ E']. apply Z.ltb_lt in E'.
  intros [= <-]. done.
Qed.

Lemma setitem_in_range {A} (a : list A) (i : Z) (x : A) :
  0 <= i < Z.of_nat (length a) ->
  setitem a i x = Ok (<[Z.to_nat i := x]> a).
Proof.
  intros Hi. unfold setitem.
  destruct (i <? 0) eqn:E; [apply Z.ltb_lt in E; lia|].
  destruct ((0 <=? i) && (i <? Z.of_nat (length a))) eqn:E'; [done|].
  apply andb_false_iff in E' as [E' | E'];
    [apply Z.leb_gt in E' | apply Z.ltb_ge in E']; lia.
Qed.

(** C4.  In the offset scan, take a block whose header pair was read,
    with a cache count that is not zero and the level number the loop
    expects.  If the block completes, the file has moved past exactly
    [2^ndim * nvar] records after the header pair, whoever owns the block,
    and the arrays hold the position after the header pair and the cache
    count at index [level - min_level] when [cpu + 1] is the handler's
    domain id and [level >= min_level], and are unchanged otherwise.  The
    block does complete when that many records can be skipped and, for an
    owned block, the index lies within the arrays. *)
Theorem offset_block_skips_and_records level s cpu il nc f1 f2 :
  read_scalar (ix_file s) = Ok (il, f1) ->
  read_scalar f1 = Ok (nc, f2) ->
  nc <> 0 ->
  il = level + 1 ->
  let n := 2 ^ Z.of_nat (dimensionality (ds dom)) * nvar h in
  let i := level - min_level (ds dom) in
  (forall s', offset_block dom h level s cpu = Ok s' ->
     (exists skipped,
        length skipped = Z.to_nat n /\
        ahead f2 = skipped ++ ahead (ix_file s') /\
        tell (ix_file s')
        = tell f2 + sum_list (map framed_size skipped)) /\
     (owned dom h level cpu ->
        ix_offset s' = <[Z.to_nat i := tell f2]> (ix_offset s) /\
        ix_count s' = <[Z.to_nat i := nc]> (ix_count s) /\
        i < Z.of_nat (length (ix_offset s)) /\
        i < Z.of_nat (length (ix_count s))) /\
     (~ owned dom h level cpu ->
        ix_offset s' = ix_offset s /\ ix_count s' = ix_count s)) /\
  (forall f3,
     skip f2 n = Ok f3 ->
     (owned dom h level cpu ->
        i < Z.of_nat (length (ix_offset s)) /\
        i < Z.of_nat (length (ix_count s))) ->
     exists s', offset_block dom h level s cpu = Ok s' /\ ix_file s' = f3).
Proof.
  intros H1 H2 Hnc Hil n i.
  rewrite (offset_block_nonempty _ _ _ _ _ _ _ H1 H2 Hnc).
  subst il. rewrite Z.eqb_refl. simpl.
  pose proof (owned_test level cpu) as Hown.
  destruct ((cpu + 1 =? fh_domain_id h) && (level >=? min_level (ds dom))).
  - assert (owned dom h level cpu) as Hyes by (by apply Hown).
    assert (0 <= i) by (destruct Hyes; unfold i; lia).
    split.
    + intros s' Hs'. simpl in Hs'.
      apply bind_Ok in Hs' as ([off cnt] & Hset & Hs').
      apply bind_Ok in Hset as (off' & Hoff & Hset).
      apply bind_Ok in Hset as (cnt' & Hcnt & Hset).
      injection Hset as <- <-.
      apply bind_Ok in Hs' as (f3 & Hskip & Hs'). injection Hs' as <-.
      apply setitem_Ok in Hoff as [? ->]; [|done].
      apply setitem_Ok in Hcnt as [? ->]; [|done].
      simpl. split; [|split; [done | tauto]].
      apply skip_spec in Hskip as (skipped & ? & ? & ? & _). eauto.
    + intros f3 Hskip Hrange. destruct (Hrange Hyes) as [Ho Hc].
      rewrite !setitem_in_range by (fold i; lia). simpl.
      fold n. rewrite Hskip. simpl. eauto.
  - assert (~ owned dom h level cpu) as Hno
      by (intros Hyes; apply Hown in Hyes; discriminate).
    split.
    + intros s' Hs'. simpl in Hs'.
      apply bind_Ok in Hs' as (f3 & Hskip & Hs'). injection Hs' as <-.
      simpl. split; [|split; [tauto | done]].
      apply skip_spec in Hskip as (skipped & ? & ? & ? & _). eauto.
    + intros f3 Hskip _. simpl. fold n. rewrite Hskip. simpl. eauto.
Qed.

End Offsets.

Lemma offset_block_skips_and_records_witness :
  exists s',
    @offset_block Example.halves (Example.toy_container 2)
      (Example.domain_one_block 2) Example.hydro_handler 0
      Example.index_start 0 = Ok s' /\
    ix_offset s' = [100] /\ ix_count s' = [2] /\
    Codec.ahead (ix_file s') = [].
Proof.
  pose proof (@offset_block_skips_and_records Example.halves
                (Example.toy_container 2) (Example.domain_one_block 2)
                Example.hydro_handler 0 Example.index_start 0
                1 2 _ _ eq_refl eq_refl ltac:(lia) eq_refl) as [Hdone Hruns].
  destruct (Hruns _ eq_refl) as (s' & Hs' & Hfile).
  { intros _. vm_compute. split; congruence. }
  exists s'. split; [exact Hs'|].
  destruct (Hdone s' Hs') as (_ & Hown & _).
  destruct Hown as (Ho & Hc & _).
  { vm_compute. split; congruence. }
  rewrite Ho, Hc, Hfile. done.
Defined.

Section OffsetScan.
Context {F : Float64} {O : OctreeContainer}.
Import Codec.
Variable dom : domain_file.
Variable h : field_handler.

(** C6.  In the offset scan, for a block whose header pair was read: when
    the cache count is zero the block is done, with the level number not
    looked at and the arrays untouched; when the cache count is not zero
    and the stored level number is not the loop's level plus one, the
    block raises [AssertionError], and with it the loop over the cpus of
    the level and the loop over the levels. *)
Theorem offset_block_level_check level s cpu il nc f1 f2 :
  read_scalar (ix_file s) = Ok (il, f1) ->
  read_scalar f1 = Ok (nc, f2) ->
  (nc = 0 ->
   offset_block dom h level s cpu
   = Ok {| ix_file := f2; ix_offset := ix_offset s;
           ix_count := ix_count s |}) /\
  (nc <> 0 -> il <> level + 1 ->
   offset_block dom h level s cpu = Raise AssertionError /\
   (forall before after s0,
      for_each (offset_block dom h level) s0 before = Ok s ->
      for_each (offset_block dom h level) s0 (before ++ cpu :: after)
      = Raise AssertionError) /\
   (forall before after s0 lbefore lafter s00,
      for_each (offset_block dom h level) s0 before = Ok s ->
      range (nboundary (amr_hdr dom) + ncpu (amr_hdr dom))
      = before ++ cpu :: after ->
      for_each (offset_level dom h) s00 lbefore = Ok s0 ->
      for_each (offset_level dom h) s00 (lbefore ++ level :: lafter)
      = Raise AssertionError)).
Proof.
  intros H1 H2. split.
  - intros ->. by apply (offset_block_empty dom h level s cpu il f1).
  - intros Hnc Hil.
    assert (offset_block dom h level s cpu = Raise AssertionError) as Hfail.
    { rewrite (offset_block_nonempty _ _ _ _ _ _ _ _ _ H1 H2 Hnc).
      destruct (il =? level + 1) eqn:E; [apply Z.eqb_eq in E; lia | done]. }
    split; [done|]. split.
    + intros before after s0 Hbefore.
      by apply (for_each_abort_result _ _ _ _ _ s).
    + intros before after s0 lbefore lafter s00 Hbefore Hrange Hlev.
      apply (for_each_abort_result _ _ _ _ _ s0); [done|].
      unfold offset_level. rewrite Hrange.
      by apply (for_each_abort_result _ _ _ _ _ s).
Qed.


Lemma index_inv_intro n s :
  length (ix_offset s) = n -> length (ix_count s) = n ->
  0 <= tell (ix_file s) ->
  (forall i x y,
     ix_offset s !! i = Some x -> ix_count s !! i = Some y ->
     (x = -1 <-> y = 0)) ->
  index_inv n s.
Proof. by unfold index_inv. Qed.

Lemma offset_block_inv n level s cpu s' :
  index_inv n s -> offset_block dom h level s cpu = Ok s' -> index_inv n s'.
Proof.
  intros (Hlo & Hlc & Htell & Hiff) Hrun.
  pose proof Hrun as Hrun'. unfold offset_block in Hrun'.
  apply bind_Ok in Hrun' as ([il f1] & H1 & Hrun').
  apply bind_Ok in Hrun' as ([nc f2] & H2 & Hrun').
  pose proof (read_scalar_tell _ _ _ H1). pose proof (read_scalar_tell _ _ _ H2).
  destruct (Z.eq_dec nc 0) as [-> | Hnc].
  - injection Hrun' as <-. apply index_inv_intro; simpl; try done. lia.
  - clear Hrun'.
    rewrite (offset_block_nonempty _ _ _ _ _ _ _ _ _ H1 H2 Hnc) in Hrun.
    apply bind_Ok in Hrun as (_ & _ & Hrun).
    apply bind_Ok in Hrun as ([off cnt] & Hset & Hrun).
    apply bind_Ok in Hrun as (f3 & Hskip & Hrun). injection Hrun as <-.
    apply skip_tell in Hskip.
    pose proof (owned_test dom h level cpu) as Hown.
    destruct ((cpu + 1 =? fh_domain_id h) && (level >=? min_level (ds dom))).
    + assert (0 <= level - min_level (ds dom))
        by (destruct (proj1 Hown eq_refl); lia).
      apply bind_Ok in Hset as (off' & Hoff & Hset).
      apply bind_Ok in Hset as (cnt' & Hcnt & Hset).
      injection Hset as <- <-.
      apply setitem_Ok in Hoff as [? ->]; [|done].
      apply setitem_Ok in Hcnt as [? ->]; [|done].
      apply index_inv_intro; simpl; rewrite ?length_insert; try done; [lia|].
      intros i x y.
      destruct (decide (i = Z.to_nat (level - min_level (ds dom))))
        as [-> | Hne].
      * rewrite !list_lookup_insert_eq by lia. intros [= <-] [= <-]. lia.
      * rewrite !list_lookup_insert_ne by done. apply Hiff.
    + injection Hset as <- <-.
      apply index_inv_intro; simpl; try done. lia.
Qed.

Lemma offset_scan_inv f o c :
  0 <= tell f -> offset_scan dom h f = Ok (o, c) ->
  let n := nlevelmax (amr_hdr dom) - min_level (ds dom) in
  0 <= n /\
  index_inv (Z.to_nat n) {| ix_file := f; ix_offset := o; ix_count := c |}.
Proof.
  intros Htell Hrun. unfold offset_scan in Hrun.
  apply bind_Ok in Hrun as (f1 & Hskip & Hrun).
  apply bind_Ok in Hrun as (u & Hn & Hrun).
  apply bind_Ok in Hrun as (s & Hloop & Hrun). injection Hrun as <- <-.
  destruct (nlevelmax (amr_hdr dom) - min_level (ds dom) <? 0) eqn:E;
    [discriminate Hn|]. apply Z.ltb_ge in E.
  simpl. split; [done|].
  apply skip_tell in Hskip.
  assert (index_inv
            (Z.to_nat (nlevelmax (amr_hdr dom) - min_level (ds dom))) s)
    as (? & ? & _ & ?).
  { refine (for_each_invariant _ (index_inv _) _ _ _ _ _ Hloop).
    - intros s1 level s2 Hs1 Hlevel.
      refine (for_each_invariant _ (index_inv _) _ _ _ _ Hs1 Hlevel).
      intros s3 cpu s4 Hs3. by apply offset_block_inv.
    - apply index_inv_intro; simpl; rewrite ?length_replicate; try done; [lia|].
      intros i x y Hx Hy.
      apply lookup_replicate in Hx as [-> _].
      apply lookup_replicate in Hy as [-> _]. done. }
  by apply index_inv_intro.
Qed.

Lemma for_each_app {A S} (body : S -> A -> result S) (l1 l2 : list A)
    (s s' : S) :
  for_each body s (l1 ++ l2) = Ok s' ->
  exists s1, for_each body s l1 = Ok s1 /\ for_each body s1 l2 = Ok s'.
Proof.
  revert s. induction l1 as [|a l1 IH]; intros s Hrun; simpl in *.
  - eauto.
  - apply bind_Ok in Hrun as (s0 & Ha & Hrun).
    apply IH in Hrun as (s1 & H1 & H2). rewrite Ha. simpl. eauto.
Qed.

Lemma for_each_invariant_in {A S} (body : S -> A -> result S) (I : S -> Prop)
    (l : list A) (s s' : S) :
  (forall s a s', a ∈ l -> I s -> body s a = Ok s' -> I s') ->
  I s -> for_each body s l = Ok s' -> I s'.
Proof.
  revert s. induction l as [|a l IH]; intros s Hstep Hs H; simpl in H.
  - injection H as <-. exact Hs.
  - apply bind_Ok in H as (s1 & Ha & Hl).
    apply (IH s1); [|by eapply Hstep; [left| |]|done].
    intros s2 a2 s3 Hin. apply Hstep. by right.
Qed.

Lemma range_split k m :
  0 <= k < m -> range m = range k ++ k :: seqZ (k + 1) (m - k - 1).
Proof.
  intros Hk. unfold range.
  replace m with (k + (m - k)) at 1 by lia.
  rewrite seqZ_app by lia. f_equal. rewrite Z.add_0_l.
  rewrite seqZ_cons by lia. repeat f_equal; lia.
Qed.

(** The block that writes index [i] of the arrays. *)
Lemma writes_index level cpu (i : nat) :
  cpu + 1 = fh_domain_id h /\ level >= min_level (ds dom) /\
  Z.to_nat (level - min_level (ds dom)) = i
  <-> level = Z.of_nat i + min_level (ds dom) /\ cpu = fh_domain_id h - 1.
Proof. lia. Qed.

Lemma offset_block_reads level s cpu s' :
  offset_block dom h level s cpu = Ok s' ->
  exists il f1 nc f2,
    read_scalar (ix_file s) = Ok (il, f1) /\ read_scalar f1 = Ok (nc, f2).
Proof.
  unfold offset_block. intros Hrun.
  apply bind_Ok in Hrun as ([il f1] & H1 & Hrun).
  apply bind_Ok in Hrun as ([nc f2] & H2 & _). eauto 6.
Qed.

(** A block leaves index [i] alone unless it is the block of the
    handler's domain at the level of that index. *)
Lemma offset_block_frame level s cpu s' (i : nat) :
  offset_block dom h level s cpu = Ok s' ->
  ~ (level = Z.of_nat i + min_level (ds dom) /\ cpu = fh_domain_id h - 1) ->
  ix_offset s' !! i = ix_offset s !! i /\
  ix_count s' !! i = ix_count s !! i.
Proof.
  intros Hrun Hother.
  destruct (offset_block_reads _ _ _ _ Hrun) as (il & f1 & nc & f2 & H1 & H2).
  destruct (Z.eq_dec nc 0) as [-> | Hnc].
  - rewrite (offset_block_empty _ _ _ _ _ _ _ _ H1 H2) in Hrun.
    by injection Hrun as <-.
  - rewrite (offset_block_nonempty _ _ _ _ _ _ _ _ _ H1 H2 Hnc) in Hrun.
    apply bind_Ok in Hrun as (_ & _ & Hrun).
    apply bind_Ok in Hrun as ([off cnt] & Hset & Hrun).
    apply bind_Ok in Hrun as (f3 & _ & Hrun). injection Hrun as <-. simpl.
    pose proof (owned_test dom h level cpu) as Hown.
    destruct ((cpu + 1 =? fh_domain_id h) && (level >=? min_level (ds dom))).
    + destruct (proj1 Hown eq_refl) as [Hcpu Hlevel].
      apply bind_Ok in Hset as (off' & Hoff & Hset).
      apply bind_Ok in Hset as (cnt' & Hcnt & Hset).
      injection Hset as <- <-.
      apply setitem_Ok in Hoff as [_ ->]; [|lia].
      apply setitem_Ok in Hcnt as [_ ->]; [|lia].
      rewrite !list_lookup_insert_ne; [done| |].
      all: intros Hi; apply Hother, writes_index; lia.
    + by injection Hset as <- <-.
Qed.

(** The block of the handler's domain records its position and its cache
    count when the count is not zero. *)
Lemma offset_block_record level s cpu s' il nc f1 f2 :
  offset_block dom h level s cpu = Ok s' ->
  read_scalar (ix_file s) = Ok (il, f1) ->
  read_scalar f1 = Ok (nc, f2) ->
  nc <> 0 -> cpu + 1 = fh_domain_id h -> level >= min_level (ds dom) ->
  ix_offset s' !! Z.to_nat (level - min_level (ds dom))
  = Some (Codec.tell f2) /\
  ix_count s' !! Z.to_nat (level - min_level (ds dom)) = Some nc.
Proof.
  intros Hrun H1 H2 Hnc Hcpu Hlevel.
  rewrite (offset_block_nonempty _ _ _ _ _ _ _ _ _ H1 H2 Hnc) in Hrun.
  apply bind_Ok in Hrun as (_ & _ & Hrun).
  apply bind_Ok in Hrun as ([off cnt] & Hset & Hrun).
  apply bind_Ok in Hrun as (f3 & _ & Hrun). injection Hrun as <-. simpl.
  rewrite (proj2 (owned_test dom h level cpu)) in Hset by (split; lia).
  apply bind_Ok in Hset as (off' & Hoff & Hset).
  apply bind_Ok in Hset as (cnt' & Hcnt & Hset).
  injection Hset as <- <-.
  apply setitem_Ok in Hoff as [? ->]; [|lia].
  apply setitem_Ok in Hcnt as [? ->]; [|lia].
  rewrite !list_lookup_insert_eq by lia. done.
Qed.

Lemma offset_blocks_frame level cpus s s' (i : nat) :
  for_each (offset_block dom h level) s cpus = Ok s' ->
  (forall cpu, cpu ∈ cpus ->
     ~ (level = Z.of_nat i + min_level (ds dom) /\
        cpu = fh_domain_id h - 1)) ->
  ix_offset s' !! i = ix_offset s !! i /\
  ix_count s' !! i = ix_count s !! i.
Proof.
  intros Hrun Hother.
  refine (for_each_invariant_in _
            (fun s1 => ix_offset s1 !! i = ix_offset s !! i /\
                       ix_count s1 !! i = ix_count s !! i)
            _ _ _ _ _ Hrun); [|done].
  intros s1 cpu s2 Hin [Ho Hc] Hblock.
  destruct (offset_block_frame _ _ _ _ i Hblock (Hother cpu Hin)) as [-> ->].
  done.
Qed.

Lemma offset_levels_frame levels s s' (i : nat) :
  for_each (offset_level dom h) s levels = Ok s' ->
  (forall level cpu,
     level ∈ levels ->
     cpu ∈ range (nboundary (amr_hdr dom) + ncpu (amr_hdr dom)) ->
     ~ (level = Z.of_nat i + min_level (ds dom) /\
        cpu = fh_domain_id h - 1)) ->
  ix_offset s' !! i = ix_offset s !! i /\
  ix_count s' !! i = ix_count s !! i.
Proof.
  intros Hrun Hother.
  refine (for_each_invariant_in _
            (fun s1 => ix_offset s1 !! i = ix_offset s !! i /\
                       ix_count s1 !! i = ix_count s !! i)
            _ _ _ _ _ Hrun); [|done].
  intros s1 level s2 Hin [Ho Hc] Hlevel. unfold offset_level in Hlevel.
  destruct (offset_blocks_frame _ _ _ _ i Hlevel) as [-> ->]; [|done].
  intros cpu Hcpu. by apply Hother.
Qed.

(** What the completed scan holds at index [i]: the position and the
    cache count of the block of the handler's domain at that level when
    the scan saw one with a count that is not zero, the sentinel and zero
    when it saw none; and one of the two is the case. *)
Lemma offset_scan_records f0 s (i : nat) :
  for_each (offset_level dom h) (scan_entry dom f0)
    (range (nlevelmax (amr_hdr dom))) = Ok s ->
  (i < Z.to_nat (nlevelmax (amr_hdr dom) - min_level (ds dom)))%nat ->
  let level := Z.of_nat i + min_level (ds dom) in
  let cpu := fh_domain_id h - 1 in
  (forall pos nc,
     sees dom h (scan_entry dom f0) level cpu pos nc ->
     ix_offset s !! i = Some pos /\ ix_count s !! i = Some nc) /\
  ((exists pos nc, sees dom h (scan_entry dom f0) level cpu pos nc) \/
   (forall pos nc, ~ sees dom h (scan_entry dom f0) level cpu pos nc) /\
   ix_offset s !! i = Some (-1) /\ ix_count s !! i = Some 0).
Proof.
  intros Hloop Hi level cpu.
  set (s0 := scan_entry dom f0) in *.
  assert (ix_offset s0 !! i = Some (-1) /\ ix_count s0 !! i = Some 0)
    as [Ho0 Hc0].
  { unfold s0, scan_entry. simpl. by rewrite !lookup_replicate_2. }
  destruct (decide (0 <= level /\
                    0 <= cpu < nboundary (amr_hdr dom) + ncpu (amr_hdr dom)))
    as [[Hlevel Hcpu] | Hout].
  - assert (0 <= level < nlevelmax (amr_hdr dom)) as Hlevel'
      by (unfold level; lia).
    rewrite (range_split level) in Hloop by done.
    apply for_each_app in Hloop as (s1 & Hbefore & Hloop).
    simpl in Hloop. apply bind_Ok in Hloop as (s2 & Hthis & Hafter).
    unfold offset_level in Hthis.
    rewrite (range_split cpu) in Hthis by done.
    apply for_each_app in Hthis as (sA & Hleft & Hthis).
    simpl in Hthis. apply bind_Ok in Hthis as (sB & Hblock & Hright).
    destruct (offset_levels_frame _ _ _ i Hbefore) as [Ho1 Hc1].
    { intros l c Hl _ [Heq _]. unfold range in Hl.
      apply elem_of_seqZ in Hl. fold level in Heq. lia. }
    destruct (offset_blocks_frame _ _ _ _ i Hleft) as [HoA HcA].
    { intros c Hc [_ Heq]. unfold range in Hc.
      apply elem_of_seqZ in Hc. fold cpu in Heq. lia. }
    destruct (offset_blocks_frame _ _ _ _ i Hright) as [Ho2 Hc2].
    { intros c Hc [_ Heq]. apply elem_of_seqZ in Hc. fold cpu in Heq. lia. }
    destruct (offset_levels_frame _ _ _ i Hafter) as [Ho Hc].
    { intros l c Hl _ [Heq _]. apply elem_of_seqZ in Hl.
      fold level in Heq. lia. }
    assert (reaches dom h s0 level cpu sA) as Hreach
      by (split; [done|]; split; [done|]; eauto).
    destruct (offset_block_reads _ _ _ _ Hblock)
      as (il & f1 & nc & f2 & H1 & H2).
    assert (forall pos nc',
              sees dom h s0 level cpu pos nc' ->
              nc' = nc /\ pos = tell f2) as Hsame.
    { intros pos nc' (s' & il' & f1' & f2' & Hr & H1' & H2' & _ & ->).
      destruct Hr as (_ & _ & s1' & Hb' & Hl').
      rewrite Hbefore in Hb'. injection Hb' as <-.
      rewrite Hleft in Hl'. injection Hl' as <-.
      rewrite H1 in H1'. injection H1' as <- <-.
      rewrite H2 in H2'. by injection H2' as <- <-. }
    destruct (Z.eq_dec nc 0) as [Hzero | Hnc].
    + assert (forall pos nc', ~ sees dom h s0 level cpu pos nc') as Hnone.
      { intros pos nc' Hsees.
        destruct (Hsame _ _ Hsees) as [-> _].
        destruct Hsees as (? & ? & ? & ? & _ & _ & _ & Hne & _). done. }
      split; [intros pos nc' Hsees; by destruct (Hnone _ _ Hsees)|].
      right. split; [done|]. subst nc.
      rewrite (offset_block_empty _ _ _ _ _ _ _ _ H1 H2) in Hblock.
      injection Hblock as <-. simpl in *.
      rewrite Ho, Hc, Ho2, Hc2, HoA, HcA, Ho1, Hc1. done.
    + destruct (offset_block_record _ _ _ _ _ _ _ _ Hblock H1 H2 Hnc)
        as [HoB HcB]; [unfold cpu; lia | unfold level; lia |].
      replace (Z.to_nat (level - min_level (ds dom))) with i in HoB, HcB
        by (unfold level; lia).
      split.
      * intros pos nc' Hsees. destruct (Hsame _ _ Hsees) as [-> ->].
        rewrite Ho, Hc, Ho2, Hc2. done.
      * left. exists (tell f2), nc, sA, il, f1, f2. done.
  - assert (forall pos nc, ~ sees dom h s0 level cpu pos nc) as Hnone.
    { intros pos nc (s' & ? & ? & ? & Hr & _).
      destruct Hr as (Hl & Hc & _). apply Hout. lia. }
    split; [intros pos nc Hsees; by destruct (Hnone _ _ Hsees)|].
    right. split; [done|].
    destruct (offset_levels_frame _ _ _ i Hloop) as [-> ->]; [|done].
    intros l c Hl Hc [Hl' Hc']. unfold range in Hl, Hc.
    apply elem_of_seqZ in Hl. apply elem_of_seqZ in Hc.
    apply Hout. unfold level, cpu. lia.
Qed.

(** C9.  When the offset computation of a handler with nothing cached
    completes, the number of levels [nlevelmax - min_level] is not
    negative, the offset array and the cell-count array it caches both
    have that length, and at every index the offset is -1 if and only if
    the cell count is 0.  Moreover a level is recorded exactly when the
    scan saw, at that level, a block of the handler's domain whose cache
    count is not zero: the scan runs over the handler's file from the
    record after the header attributes, and at each index [i] of the
    arrays, with [level = i + min_level] and [cpu = domain_id - 1],
    - if the scan sees such a block at [(level, cpu)], the offset array
      holds the file position after the block's two header records and
      the cell-count array holds the block's cache count;
    - if it sees none, the offset array holds -1 and the cell-count array
      holds 0;
    - the offset differs from -1 if and only if the scan sees such a
      block. *)
Theorem offset_arrays_agree fs t o h' :
  _offset h = None ->
  offset dom fs h = (t, Ok (o, h')) ->
  let n := nlevelmax (amr_hdr dom) - min_level (ds dom) in
  exists c,
    _offset h' = Some o /\ _level_count h' = Some c /\
    0 <= n /\ length o = Z.to_nat n /\ length c = Z.to_nat n /\
    (forall i x y,
       o !! i = Some x -> c !! i = Some y -> (x = -1 <-> y = 0)) /\
    exists file f0,
      fs (fname h) = Some file /\
      skip (open file) (Z.of_nat (length (attrs h))) = Ok f0 /\
      forall i : nat,
        (i < Z.to_nat n)%nat ->
        let level := Z.of_nat i + min_level (ds dom) in
        let cpu := fh_domain_id h - 1 in
        (forall pos nc,
           sees dom h (scan_entry dom f0) level cpu pos nc ->
           o !! i = Some pos /\ c !! i = Some nc) /\
        ((forall pos nc,
            ~ sees dom h (scan_entry dom f0) level cpu pos nc) ->
         o !! i = Some (-1) /\ c !! i = Some 0) /\
        (o !! i <> Some (-1) <->
         exists pos nc, sees dom h (scan_entry dom f0) level cpu pos nc).
Proof.
  intros Hnone Hrun n. unfold offset in Hrun. rewrite Hnone in Hrun.
  apply tbind_Ok in Hrun as (t1 & f & t2 & Hopen & Hrun & ->).
  apply tbind_Ok in Hrun as (t3 & [o' c] & t4 & Hscan & Hrun & ->).
  injection Hrun as <- <- <-.
  apply quiet_Ok in Hscan as [Hscan ->].
  unfold open_file in Hopen.
  destruct (fs (fname h)) as [file|] eqn:Hfile; [|discriminate].
  injection Hopen as <- <-.
  pose proof Hscan as Hinv.
  apply offset_scan_inv in Hinv as (Hn & Hlo & Hlc & _ & Hiff);
    [|simpl; lia].
  exists c. simpl in *.
  split; [done|]. split; [done|]. split; [done|].
  split; [done|]. split; [done|]. split; [done|].
  unfold offset_scan in Hscan.
  apply bind_Ok in Hscan as (f0 & Hskip & Hscan).
  apply bind_Ok in Hscan as (u & _ & Hscan).
  apply bind_Ok in Hscan as (s & Hloop & Hscan).
  injection Hscan as <- <-.
  exists file, f0. split; [done|]. split; [done|].
  intros i Hi.
  destruct (offset_scan_records f0 s i Hloop Hi) as [Hseen Hcases].
  split; [exact Hseen|]. split.
  - intros Hnone'. destruct Hcases as [(pos & nc & Hsees) | (_ & Ho & Hc)].
    + by destruct (Hnone' _ _ Hsees).
    + done.
  - split.
    + intros Hrec. destruct Hcases as [Hsees | (_ & Ho & _)]; [done|].
      by destruct Hrec.
    + intros (pos & nc & Hsees) Ho.
      destruct (Hseen _ _ Hsees) as [Hpos Hnc].
      rewrite Ho in Hpos. injection Hpos as <-.
      destruct Hsees as (? & ? & ? & ? & _ & _ & _ & Hne & _).
      apply Hne. by apply (Hiff i (-1) nc).
Qed.

End OffsetScan.

Lemma offset_block_level_check_witness :
  @offset_block Example.halves (Example.toy_container 2)
    (Example.domain_one_block 2) Example.hydro_handler 3
    Example.index_start 0 = Raise AssertionError.
Proof.
  refine (proj1 (proj2
    (@offset_block_level_check Example.halves (Example.toy_container 2)
       (Example.domain_one_block 2) Example.hydro_handler 3
       Example.index_start 0 1 2 _ _ eq_refl eq_refl) _ _)); lia.
Defined.

Lemma offset_one_block :
  @offset Example.halves (Example.toy_container 2)
    (Example.domain_one_block 2) Example.fs_hydro Example.hydro_handler
  = ([EvOpen "hydro_00001.out00001"],
     Ok ([100], cached Example.hydro_handler [100] [2])).
Proof. vm_compute. reflexivity. Qed.

Lemma sees_one_block :
  @sees Example.halves (Example.toy_container 2)
    (Example.domain_one_block 2) Example.hydro_handler
    Example.index_start 0 0 100 2.
Proof.
  eexists _, _, _, _. split; [|split; [|split; [|split]]].
  - split; [simpl; lia|]. split; [simpl; lia|].
    eexists. split; reflexivity.
  - reflexivity.
  - reflexivity.
  - lia.
  - reflexivity.
Qed.

Lemma offset_arrays_agree_witness :
  @offset Example.halves (Example.toy_container 2)
    (Example.domain_one_block 2) Example.fs_hydro Example.hydro_handler
  = ([EvOpen "hydro_00001.out00001"],
     Ok ([100], cached Example.hydro_handler [100] [2])) /\
  @sees Example.halves (Example.toy_container 2)
    (Example.domain_one_block 2) Example.hydro_handler
    Example.index_start 0 0 100 2 /\
  [100] !! 0%nat = Some 100 /\ [2] !! 0%nat = Some 2 /\
  ([100] !! 0%nat <> Some (-1) <->
   exists pos nc,
     @sees Example.halves (Example.toy_container 2)
       (Example.domain_one_block 2) Example.hydro_handler
       Example.index_start 0 0 pos nc).
Proof.
  destruct (@offset_arrays_agree Example.halves (Example.toy_container 2)
              (Example.domain_one_block 2) Example.hydro_handler
              Example.fs_hydro _ _ _ eq_refl offset_one_block)
    as (c & _ & Hc & _ & _ & _ & _ & file & f0 & Hfile & Hskip & Hrec).
  vm_compute in Hc. injection Hc as <-.
  vm_compute in Hfile. injection Hfile as <-.
  vm_compute in Hskip. injection Hskip as <-.
  destruct (Hrec 0%nat ltac:(simpl; lia)) as (Hseen & _ & Hiff).
  split; [exact offset_one_block|]. split; [exact sees_one_block|].
  split; [exact (proj1 (Hseen _ _ sees_one_block))|].
  split; [exact (proj2 (Hseen _ _ sees_one_block))|].
  exact Hiff.
Defined.

(** ** Caching of the offset index *)

Section OffsetCache.
Context {F : Float64} {O : OctreeContainer}.
Variable dom : domain_file.
Variable fs : filesystem.

Lemma offset_cached h o :
  _offset h = Some o -> offset dom fs h = ([], Ok (o, h)).
Proof. intros Ho. unfold offset. by rewrite Ho. Qed.

Lemma level_count_cached h c :
  _level_count h = Some c -> level_count dom fs h = ([], Ok (c, h)).
Proof. intros Hc. unfold level_count. by rewrite Hc. Qed.

(** A successful [offset] leaves its result cached and opens the file at
    most once. *)
Lemma offset_Ok h t o h' :
  offset dom fs h = (t, Ok (o, h')) ->
  _offset h' = Some o /\ (length t <= 1)%nat /\
  (_offset h = Some o /\ h' = h /\ t = [] \/
   _offset h = None /\ is_Some (_level_count h') /\
   t = [EvOpen (fname h)]).
Proof.
  unfold offset. destruct (_offset h) as [o0|] eqn:Ho.
  - intros [= <- <- <-]. rewrite Ho.
    split; [done|]. split; [simpl; lia|]. by left.
  - intros Hrun.
    apply tbind_Ok in Hrun as (t1 & f & t2 & Hopen & Hrun & ->).
    apply tbind_Ok in Hrun as (t3 & [o' c] & t4 & Hscan & Hrun & ->).
    injection Hrun as <- <- <-.
    apply quiet_Ok in Hscan as [_ ->].
    unfold open_file in Hopen. injection Hopen as <- _.
    simpl. split; [done|]. split; [lia|]. right. eauto.
Qed.

Lemma level_count_Ok h t c h' :
  level_count dom fs h = (t, Ok (c, h')) ->
  _level_count h' = Some c /\ (length t <= 1)%nat /\
  (t = [] /\ h' = h \/ _offset h = None /\ is_Some (_offset h')).
Proof.
  unfold level_count. destruct (_level_count h) as [c0|] eqn:Hc.
  - intros [= <- <- <-]. rewrite Hc.
    split; [done|]. split; [simpl; lia|]. by left.
  - intros Hrun.
    apply tbind_Ok in Hrun as (t1 & [o h1] & t2 & Hoff & Hrun & ->).
    destruct (_level_count h1) as [c1|] eqn:Hc1; [|discriminate].
    injection Hrun as <- <- <-.
    apply offset_Ok in Hoff as (Ho1 & Hlen & Hcase).
    rewrite app_nil_r. split; [done|]. split; [done|].
    destruct Hcase as [(Ho & -> & ->) | (Ho & _ & _)].
    + congruence.
    + right. rewrite Ho1. eauto.
Qed.

(** Once the offsets are cached, no later call opens a file. *)
Lemma access_all_cached calls h t vs h' :
  is_Some (_offset h) ->
  access_all dom fs h calls = (t, Ok (vs, h')) -> t = [].
Proof.
  revert h t vs. induction calls as [|a calls IH]; intros h t vs Ho Hrun;
    simpl in Hrun.
  - by injection Hrun as <- _.
  - apply tbind_Ok in Hrun as (t1 & [v h1] & t2 & Ha & Hrun & ->).
    apply tbind_Ok in Hrun as (t3 & [vs' h2] & t4 & Hrest & Hrun & ->).
    injection Hrun as <- <- <-.
    assert (t1 = [] /\ h1 = h) as [-> ->].
    { destruct a; simpl in Ha.
      - apply offset_Ok in Ha as (_ & _ & [(_ & -> & ->) | (Hn & _)]);
          [done|]. rewrite Hn in Ho. by destruct Ho.
      - apply level_count_Ok in Ha as (_ & _ & [[-> ->] | (Hn & _)]);
          [done|]. rewrite Hn in Ho. by destruct Ho. }
    by rewrite (IH _ _ _ Ho Hrest).
Qed.

(** C5.  A second [offset] on the handler the first one left returns the
    same array, leaves the handler as it is and opens no file; the same
    holds for [level_count]; and over any sequence of calls to the two
    accessors on one handler, the field file is opened at most once. *)
Theorem offset_idempotent h :
  (forall t o h',
     offset dom fs h = (t, Ok (o, h')) ->
     offset dom fs h' = ([], Ok (o, h'))) /\
  (forall t c h',
     level_count dom fs h = (t, Ok (c, h')) ->
     level_count dom fs h' = ([], Ok (c, h'))) /\
  (forall calls t vs h',
     access_all dom fs h calls = (t, Ok (vs, h')) ->
     (length t <= 1)%nat).
Proof.
  split; [|split].
  - intros t o h' Hrun. apply offset_Ok in Hrun as (Ho & _).
    by apply offset_cached.
  - intros t c h' Hrun. apply level_count_Ok in Hrun as (Hc & _).
    by apply level_count_cached.
  - intros calls. revert h.
    induction calls as [|a calls IH]; intros h0 t vs h' Hrun; simpl in Hrun.
    + injection Hrun as <- _. simpl. lia.
    + apply tbind_Ok in Hrun as (t1 & [v h1] & t2 & Ha & Hrun & ->).
      apply tbind_Ok in Hrun as (t3 & [vs' h2] & t4 & Hrest & Hrun & ->).
      injection Hrun as <- <- <-. rewrite app_nil_r.
      assert (t1 = [] /\ h1 = h0 \/ (length t1 <= 1)%nat /\ is_Some (_offset h1))
        as [[-> ->] | [Hlen Hsome]].
      { destruct a; simpl in Ha.
        - apply offset_Ok in Ha as (Ho & Hlen & [(_ & -> & ->) | _]); eauto.
        - apply level_count_Ok in Ha as (_ & Hlen & [[-> ->] | (_ & Ho)]);
            eauto. }
      * simpl. by apply (IH h0 t3 vs' h2).
      * rewrite (access_all_cached _ _ _ _ _ Hsome Hrest), app_nil_r. done.
Qed.

End OffsetCache.

Lemma offset_idempotent_witness :
  exists t o h',
    @offset Example.halves (Example.toy_container 2)
      (Example.domain_one_block 2) Example.fs_hydro Example.hydro_handler
    = (t, Ok (o, h')) /\
    @offset Example.halves (Example.toy_container 2)
      (Example.domain_one_block 2) Example.fs_hydro h'
    = ([], Ok (o, h')).
Proof.
  eexists _, _, _. split; [reflexivity|].
  exact (proj1 (@offset_idempotent Example.halves (Example.toy_container 2)
                  (Example.domain_one_block 2) Example.fs_hydro
                  Example.hydro_handler) _ _ _ eq_refl).
Defined.

(** On the example: the first call scans, the later ones do not. *)
Lemma offset_idempotent_example :
  exists o c h',
    @access_all Example.halves (Example.toy_container 2)
      (Example.domain_one_block 2) Example.fs_hydro Example.hydro_handler
      [GetOffset; GetLevelCount; GetOffset]
    = ([EvOpen "hydro_00001.out00001"], Ok ([o; c; o], h')) /\
    o = [100] /\ c = [2].
Proof. eexists _, _, _. split; [reflexivity | done]. Qed.

(** ** Domain inclusion and work units *)

Section Inclusion.
Context {F : Float64} {O : OctreeContainer}.

(** C10.  For a selector whose [domain_id] attribute is present and not
    [None], [included] returns whether that id is the reader's own
    [domain_id] and sends no query to the octree container.  For a
    selector without it, the answer is the container's: whether the
    reader's [domain_id] is among the ids [domain_identify] returns. *)
Theorem included_by_domain_id d sel :
  (forall i, sel_domain_id sel = Some i ->
     exists b, included d sel = ([], Ok b) /\ (b = true <-> i = domain_id d)) /\
  (forall h, sel_domain_id sel = None -> oct_handler d = Some h ->
     exists b, included d sel = ([EvDomainIdentify (domain_id d)], Ok b) /\
               (b = true <-> domain_id d ∈ domain_identify h sel)).
Proof.
  split.
  - intros i Hi. unfold included. rewrite Hi.
    exists (i =? domain_id d). split; [done | apply Z.eqb_eq].
  - intros h Hnone Hh. unfold included. rewrite Hnone, Hh.
    eexists. split; [done | apply bool_decide_eq_true].
Qed.

Lemma included_selected d sel t b :
  included d sel = (t, Ok b) -> b = selected d sel.
Proof.
  unfold included, selected.
  destruct (sel_domain_id sel); [by intros [= <- <-]|].
  destruct (oct_handler d); [by intros [= <- <-] | discriminate].
Qed.

Lemma included_runs d sel :
  is_Some (sel_domain_id sel) \/ is_Some (oct_handler d) ->
  exists t, included d sel = (t, Ok (selected d sel)).
Proof.
  unfold included, selected.
  destruct (sel_domain_id sel); [eauto|].
  destruct (oct_handler d); [eauto|].
  intros [[? [=]] | [? [=]]].
Qed.

Lemma included_domains_filter domains sel t doms :
  included_domains domains sel = (t, Ok doms) ->
  doms = filter (fun d => selected d sel = true) domains.
Proof.
  revert t doms. induction domains as [|d domains IH]; intros t doms Hrun;
    simpl in Hrun.
  - by injection Hrun as _ <-.
  - apply tbind_Ok in Hrun as (t1 & b & t2 & Hb & Hrun & ->).
    apply tbind_Ok in Hrun as (t3 & rest & t4 & Hrest & Hrun & ->).
    injection Hrun as _ <-.
    apply included_selected in Hb as ->. apply IH in Hrest as ->.
    destruct (selected d sel) eqn:E.
    + by rewrite filter_cons_True.
    + rewrite filter_cons_False; [done | congruence].
Qed.

Lemma included_domains_runs domains sel :
  is_Some (sel_domain_id sel) \/
  Forall (fun d => is_Some (oct_handler d)) domains ->
  exists t, included_domains domains sel
            = (t, Ok (filter (fun d => selected d sel = true) domains)).
Proof.
  intros Hcan. induction domains as [|d domains IH]; simpl.
  - by exists [].
  - destruct IH as [t2 Hrest].
    { destruct Hcan as [|Hall]; [by left|].
      right. by apply Forall_cons in Hall as [_ ?]. }
    destruct (included_runs d sel) as [t1 Hd].
    { destruct Hcan as [|Hall]; [by left|].
      right. by apply Forall_cons in Hall as [? _]. }
    rewrite Hd. simpl. rewrite Hrest. simpl.
    eexists. f_equal. f_equal.
    destruct (selected d sel) eqn:E.
    + by rewrite filter_cons_True.
    + rewrite filter_cons_False; [done | congruence].
Qed.

(** C8, amended.  For a data object with no cached work units, the list
    of work units [_identify_base_chunk] stores holds, in the order of
    the domains, one unit for each domain whose inclusion test succeeds
    and no other; so a domain whose test fails is absent, and when the
    selector carries no [domain_id] a domain that its octree container
    does not find in the selection is absent.  The call returns whenever
    the selector carries a [domain_id] or every domain has its container;
    a list cached on the data object is kept as it is. *)
Theorem identify_base_chunk_units domains dobj :
  let sel := obj_selector dobj in
  (_chunk_info dobj = None ->
   (forall t dobj',
      _identify_base_chunk domains dobj = (t, Ok dobj') ->
      _chunk_info dobj'
      = Some (map (subset_of dobj)
                (filter (fun d => selected d sel = true) domains)) /\
      (sel_domain_id sel = None ->
       forall d u, _chunk_info dobj' = Some u ->
                   d ∈ domains -> ~ overlaps d sel ->
                   subset_of dobj d ∉ u)) /\
   (is_Some (sel_domain_id sel) \/
    Forall (fun d => is_Some (oct_handler d)) domains ->
    exists t dobj', _identify_base_chunk domains dobj = (t, Ok dobj'))) /\
  (forall info, _chunk_info dobj = Some info ->
     exists dobj', _identify_base_chunk domains dobj = ([], Ok dobj') /\
                   _chunk_info dobj' = Some info).
Proof.
  intros sel. split; [intros Hnone; split|].
  - intros t dobj' Hrun. unfold _identify_base_chunk in Hrun.
    rewrite Hnone in Hrun.
    apply tbind_Ok in Hrun as (t1 & info & t2 & Hinfo & Hrun & ->).
    injection Hrun as _ <-.
    apply tbind_Ok in Hinfo as (t3 & doms & t4 & Hdoms & Hinfo & ->).
    injection Hinfo as _ <-.
    apply included_domains_filter in Hdoms as ->.
    simpl. split; [done|].
    intros Hsel d u [= <-] Hd Hno Hin.
    apply list_elem_of_fmap in Hin as (d' & Heq & Hin).
    injection Heq as <-.
    apply list_elem_of_filter in Hin as [Hyes _].
    apply Hno. unfold selected in Hyes. fold sel in Hyes.
    rewrite Hsel in Hyes.
    destruct (oct_handler d) as [h|] eqn:Hh; [|discriminate].
    exists h. split; [done|]. by apply bool_decide_eq_true in Hyes.
  - intros Hcan.
    destruct (included_domains_runs domains sel Hcan) as [t Hdoms].
    unfold _identify_base_chunk. rewrite Hnone. fold sel. rewrite Hdoms.
    simpl. eauto.
  - intros info Hinfo. unfold _identify_base_chunk. rewrite Hinfo.
    simpl. eauto.
Qed.

End Inclusion.



Lemma included_by_domain_id_witness :
  @included Example.halves (Example.toy_container 2)
    (Example.domain_read 2) InclusionExample.pinned = ([], Ok true).
Proof.
  destruct (proj1 (@included_by_domain_id Example.halves
                     (Example.toy_container 2) (Example.domain_read 2)
                     InclusionExample.pinned) 1 eq_refl)
    as (b & Hrun & Hb).
  rewrite Hrun. f_equal. f_equal. by apply Hb.
Defined.

Lemma identify_base_chunk_units_witness :
  exists t dobj',
    @_identify_base_chunk Example.halves (Example.toy_container 2)
      [Example.domain_read 2] InclusionExample.request = (t, Ok dobj') /\
    _chunk_info dobj'
    = Some [subset_of InclusionExample.request (Example.domain_read 2)].
Proof.
  destruct (@identify_base_chunk_units Example.halves
              (Example.toy_container 2) [Example.domain_read 2]
              InclusionExample.request) as [Hfresh _].
  destruct (Hfresh eq_refl) as [Hunits Hruns].
  destruct Hruns as (t & dobj' & Hrun); [left; by eexists|].
  exists t, dobj'. split; [exact Hrun|].
  by destruct (Hunits t dobj' Hrun) as [-> _].
Defined.

(** C8 as stated fails: the selector carries the id of domain 1, the
    container of domain 1 finds no domain in the selection, and domain 1
    is a work unit all the same. *)
Lemma identify_base_chunk_pinned_counterexample :
  exists dobj',
    @_identify_base_chunk Example.halves (Example.toy_container 2)
      [Example.domain_read 2] InclusionExample.request = ([], Ok dobj') /\
    _chunk_info dobj'
    = Some [subset_of InclusionExample.request (Example.domain_read 2)] /\
    ~ overlaps (Example.domain_read 2)
        (obj_selector InclusionExample.request).
Proof.
  eexists. split; [reflexivity|]. split; [reflexivity|].
  intros (h & _ & Hin). vm_compute in Hin. inversion Hin.
Qed.

(** ** Ordering guard and domain selection *)


Section Ordering.
Context {F : Float64} {O : OctreeContainer}.
Variable read_info : string -> result info_header.
Variable read_hilbert_indices : string -> Z -> result unit.
Variable get_cpu_list : dataset -> bbox_value -> list Z.
Variable amr_path : dataset -> Z -> string.
Variable detect_field_handlers :
  filesystem -> domain_file -> traced event (list field_handler).
Variable read_particle_headers :
  filesystem -> dataset -> Z -> traced event unit.
Variable read_header_attrs :
  Codec.stream ->
  result (Z * Z * Z * (Z * Z * Z) * list Z * Codec.stream).







End Ordering.



(** C7 at the failing inputs: a dataset with the planar ordering.  With
    the two corners of the unit box given as a numpy array, the parse
    raises [ValueError] where the claim has the unsupported-ordering
    error.  With an empty sequence as the bounding box, the parse raises
    nothing, and loading goes on to the domain selector; with a selector
    that names cpu 0 it opens the AMR file of domain 1 and builds the
    index. *)
Theorem ordering_guard_slip :
  @_parse_parameter_file Example.halves OrderingExample.read_info
    OrderingExample.read_hilbert_indices "info_00001.txt"
    (Some (BoxArray OrderingExample.unit_corners))
  = ([EvOpen "info_00001.txt"], Raise ValueError) /\
  exists ix,
    OrderingExample.load_with (Some (BoxSeq []))
    = ([EvOpen "info_00001.txt"; EvOpen "amr_00001.out00001";
        EvOpen "amr_00001.out00001"], Ok ix) /\
    map domain_id (domains ix) = [1].
Proof.
  split; [reflexivity|].
  eexists. split; [vm_compute; reflexivity | reflexivity].
Qed.

(** ** The subset filler *)


(** C3 at the failing input: the selection has no cell in the domain, the
    hydro file has one level with data, and no debugger command is to
    come.  [fill] reads the first vector of the level, enters the
    debugger and raises [BdbQuit]; no mapping is returned. *)
Theorem fill_stops_in_debugger :
  FillExample.run [] = ([EvOpen "hydro_00001.out00001"], Raise BdbQuit).
Proof. vm_compute. reflexivity. Qed.

(** *** What [fill] returns when it returns *)

Lemma for_each_invariant_traced {E A S} (body : S -> A -> traced E S)
    (I : S -> Prop) (l : list A) (s s' : S) t :
  (forall s a t s', I s -> body s a = (t, Ok s') -> I s') ->
  I s -> for_each body s l = (t, Ok s') -> I s'.
Proof.
  intros Hstep. revert s t.
  induction l as [|a l IH]; intros s t Hs H; simpl in H.
  - injection H as _ <-. exact Hs.
  - apply tbind_Ok in H as (t1 & s1 & t2 & Ha & Hl & ->). eauto.
Qed.

Lemma allocate_each_lookup {A} (keys : list string) (n : Z)
    (blank : nat -> A) (m : gmap string A) (k : string) :
  allocate_each keys n blank = Ok m ->
  m !! k = if decide (k ∈ keys) then Some (blank (Z.to_nat n)) else None.
Proof.
  unfold allocate_each. intros Hm.
  assert (m = foldl (fun m k => <[k := blank (Z.to_nat n)]> m) ∅ keys) as ->.
  { destruct keys; [by injection Hm as <-|].
    destruct (n <? 0); [discriminate | by injection Hm as <-]. }
  clear Hm.
  assert (forall m0 : gmap string A,
            foldl (fun m k => <[k := blank (Z.to_nat n)]> m) m0 keys !! k
            = if decide (k ∈ keys) then Some (blank (Z.to_nat n))
              else m0 !! k) as Hfold.
  { induction keys as [|k0 keys IH]; intros m0.
    - simpl. destruct (decide (k ∈ [])) as [Hin|]; [|done].
      by apply not_elem_of_nil in Hin.
    - simpl foldl. rewrite IH.
      destruct (decide (k ∈ keys)) as [Hin | Hnin];
        destruct (decide (k ∈ k0 :: keys)) as [Hin' | Hnin']; try done.
      + exfalso. apply Hnin'. by right.
      + apply elem_of_cons in Hin' as [-> | ?]; [|done].
        by rewrite lookup_insert_eq.
      + rewrite lookup_insert_ne; [done|].
        intros ->. apply Hnin'. by left. }
  rewrite Hfold. by destruct (decide (k ∈ keys)).
Qed.

Section FillShape.
Context {F : Float64} {O : OctreeContainer}.


Lemma fill_one_level_shape fs dom h all_fields fields levels ci fi s lo t s' :
  scatter_in_place ->
  fill_one_level fs dom h all_fields fields levels ci fi s lo = (t, Ok s') ->
  shape (fl_tr s') = shape (fl_tr s).
Proof.
  intros Hscatter Hrun. destruct lo as [level offset].
  unfold fill_one_level in Hrun.
  destruct (offset =? -1); [by injection Hrun as _ <-|].
  apply tbind_Ok in Hrun as (t1 & [counts fh] & t2 & _ & Hrun & ->).
  apply tbind_Ok in Hrun as (t3 & nc & t4 & _ & Hrun & ->).
  apply tbind_Ok in Hrun as (t5 & tmp & t6 & _ & Hrun & ->).
  apply tbind_Ok in Hrun as (t7 & [[content tmp'] dbg] & t8 & _ & Hrun & ->).
  apply tbind_Ok in Hrun as (t9 & dbg' & t10 & _ & Hrun & ->).
  injection Hrun as _ <-. simpl. apply Hscatter.
Qed.

(** When [fill] returns, the mapping it returns has the requested field
    names as its keys and an array of [cell_count] elements under each,
    provided the container's scatter writes in place. *)
Lemma fill_shape fs sub content fields sel fh dbg t st h :
  scatter_in_place ->
  oct_handler (sub_domain sub) = Some h ->
  fill fs sub content fields sel fh dbg = (t, Ok st) ->
  let cell_count := count_oct_cells sel h (domain_id (sub_domain sub)) in
  dom (fl_tr st) = list_to_set (map snd fields) /\
  forall k v, fl_tr st !! k = Some v -> length v = Z.to_nat cell_count.
Proof.
  intros Hscatter Hh Hrun cell_count. unfold fill in Hrun.
  rewrite Hh in Hrun.
  apply tbind_Ok in Hrun as (t1 & h' & t2 & Hh' & Hrun & ->).
  apply quiet_Ok in Hh' as [[= <-] ->]. fold cell_count in Hrun.
  destruct (file_index_octs h sel (domain_id (sub_domain sub)) cell_count)
    as [[levels ci] fi].
  apply tbind_Ok in Hrun as (t3 & tr & t4 & Htr & Hrun & ->).
  apply quiet_Ok in Htr as [Htr ->].
  apply tbind_Ok in Hrun as (t5 & [offsets fh'] & t6 & _ & Hrun & ->).
  assert (shape (fl_tr st) = shape tr) as Hshape.
  { refine (for_each_invariant_traced _
              (fun s => shape (fl_tr s) = shape tr) _ _ _ _ _ _ Hrun);
      [|done].
    intros s lo t' s' Hs Hstep.
    rewrite <- Hs. by apply (fill_one_level_shape _ _ _ _ _ _ _ _ _ _ _ _
                               Hscatter Hstep). }
  assert (forall k, length <$> fl_tr st !! k
                    = if decide (k ∈ map snd fields)
                      then Some (Z.to_nat cell_count) else None) as Hlook.
  { intros k. unfold shape in Hshape.
    rewrite <- lookup_fmap, Hshape, lookup_fmap.
    rewrite (allocate_each_lookup _ _ _ _ k Htr).
    destruct (decide (k ∈ map snd fields)); simpl; [|done].
    by rewrite length_replicate. }
  split.
  - apply set_eq. intros k.
    rewrite elem_of_dom, elem_of_list_to_set.
    specialize (Hlook k).
    destruct (decide (k ∈ map snd fields)) as [Hin | Hnin].
    + split; [done|]. intros _.
      destruct (fl_tr st !! k); [eauto | discriminate].
    + split; [|done]. intros [v Hv]. rewrite Hv in Hlook. discriminate.
  - intros k v Hv. specialize (Hlook k). rewrite Hv in Hlook.
    destruct (decide (k ∈ map snd fields)); [|discriminate].
    simpl in Hlook. congruence.
Qed.

(** *** The debugger stops *)

Lemma read_cell_idle fields nc i content tmp field s' :
  read_cell fields nc i (content, tmp, []) field = Ok s' -> s'.2 = [].
Proof.
  unfold read_cell. destruct (bool_decide (field ∈ fields)).
  - intros Hrun.
    apply bind_Ok in Hrun as ([v c1] & _ & Hrun).
    apply bind_Ok in Hrun as (col & _ & Hrun). discriminate.
  - intros Hrun. apply bind_Ok in Hrun as (c1 & _ & Hrun).
    by injection Hrun as <-.
Qed.

(** With no debugger command to come, a level that has data is never
    completed: [fill] raises on it. *)
Lemma fill_one_level_stops fs dom h all_fields fields levels ci fi s
    level offset t s' :
  offset <> -1 -> fl_dbg s = [] ->
  fill_one_level fs dom h all_fields fields levels ci fi s (level, offset)
  <> (t, Ok s').
Proof.
  intros Hoff Hdbg Hrun. unfold fill_one_level in Hrun.
  destruct (offset =? -1) eqn:E; [apply Z.eqb_eq in E; lia|].
  apply tbind_Ok in Hrun as (t1 & [counts fh] & t2 & _ & Hrun & ->).
  apply tbind_Ok in Hrun as (t3 & nc & t4 & _ & Hrun & ->).
  apply tbind_Ok in Hrun as (t5 & tmp & t6 & _ & Hrun & ->).
  apply tbind_Ok in Hrun as (t7 & [[content tmp'] dbg] & t8 & Hloop & Hrun & ->).
  apply tbind_Ok in Hrun as (t9 & dbg' & t10 & Hstop & Hrun & ->).
  apply quiet_Ok in Hloop as [Hloop _]. apply quiet_Ok in Hstop as [Hstop _].
  rewrite Hdbg in Hloop.
  assert ((content, tmp', dbg).2 = []) as Hidle.
  { refine (for_each_invariant _ (fun s => s.2 = []) _ _ _ _ _ Hloop);
      [|done].
    intros s1 i s2 Hs1 Hcols.
    refine (for_each_invariant _ (fun s => s.2 = []) _ _ _ _ Hs1 Hcols).
    intros [[c3 m3] d3] field s4 Hd3. simpl in Hd3. subst d3.
    apply read_cell_idle. }
  simpl in Hidle. subst dbg. discriminate.
Qed.

End FillShape.

Lemma fill_shape_witness :
  forall t st,
    FillExample.run [DbgContinue; DbgContinue; DbgContinue] = (t, Ok st) ->
    dom (fl_tr st) = {["Density"]} /\
    forall k v, fl_tr st !! k = Some v -> length v = 0%nat.
Proof.
  intros t st Hrun.
  destruct (@fill_shape Example.halves (Example.toy_container 2)
              Example.fs_hydro FillExample.subset
              (Codec.open Example.hydro_one_block) [("ramses", "Density")]
              FillExample.no_cells Example.hydro_handler
              [DbgContinue; DbgContinue; DbgContinue] t st
              {| Example.toy_domains := 1; Example.toy_room := 0;
                 Example.toy_octs := 2 |}
              (fun _ _ _ _ _ _ _ => eq_refl) eq_refl Hrun)
    as [Hdom Hlen].
  split; [|exact Hlen]. rewrite Hdom. simpl. set_solver.
Defined.

(** The same call when the debugger is told to continue at each of its
    three stops does return. *)
Lemma fill_resumed_example :
  is_ok (FillExample.run [DbgContinue; DbgContinue; DbgContinue]).2.
Proof. by vm_compute. Qed.

(** ** Further properties of the oct reader *)

Section CodecReads.
Import Codec.



End CodecReads.

Section OctReader.
Context {F : Float64} {O : OctreeContainer}.
Import Codec.









End OctReader.





(** ** Further properties of the field-offset index *)

Section Boundaries.
Import Codec.






End Boundaries.

Section OffsetBoundaries.
Context {F : Float64} {O : OctreeContainer}.
Import Codec.
Variable dom : domain_file.
Variable h : field_handler.



End OffsetBoundaries.



Section OffsetOrder.
Context {F : Float64} {O : OctreeContainer}.
Import Codec.
Variable dom : domain_file.
Variable h : field_handler.



End OffsetOrder.



(** ** The cell counts of a domain *)

Section DomainCounts.
Context {F : Float64} {O : OctreeContainer}.
Variable fs : filesystem.
Variable dom : domain_file.







End DomainCounts.



(** ** Chunks and index construction *)

Section Chunks.
Context {F : Float64} {O : OctreeContainer}.



End Chunks.



(** ** Field names of the hydro files *)








Section HydroHeader.
Context {F : Float64}.



End HydroHeader.


(** ** Construction of the index *)


Section IndexConstruction.
Context {F : Float64} {O : OctreeContainer}.
Variable get_cpu_list : dataset -> bbox_value -> list Z.
Variable amr_path : dataset -> Z -> string.
Variable detect_field_handlers :
  filesystem -> domain_file -> traced event (list field_handler).
Variable read_particle_headers :
  filesystem -> dataset -> Z -> traced event unit.
Variable read_header_attrs :
  Codec.stream ->
  result (Z * Z * Z * (Z * Z * Z) * list Z * Codec.stream).



End IndexConstruction.



